(** * JSWorker: the JavaScript binding of the native Worker object

    A shallow embedding of [src/bun.js/bindings/webcore/JSWorker.cpp]:
    the constructor ([JSWorkerDOMConstructor::construct]), the [threadId]
    getter, the prototype functions ([terminate], [postMessage], [ref],
    [unref]), the event-handler attributes, the prototype table and the
    reachability hook ([JSWorkerOwner::isReachableFromOpaqueRoots]).

    JavaScript values are finite trees.  An object has a type, named data
    properties, indexed elements, a prototype, and the outcome of
    converting it to a string, which is the one place where user code
    shows: reading a property never runs a getter, so it never throws.
    Numbers are integral.

    A host function runs against the exception slot of the VM, as the
    source does with its throw scope: throwing fills the slot, and the
    function leaves where the source has [RETURN_IF_EXCEPTION].

    An array is iterated as the engine does it: by index when it is a
    plain array and the iteration of arrays is untouched, through its
    [Symbol.iterator] method otherwise, and what that method yields is
    user code.

    What the binding calls and the sources do not hold is either a
    parameter (the serializer, the ports, the thread, the iterators of
    user code: [Collaborators]) or a definition marked as modelled from
    the specification (the native [Worker]). *)

From Stdlib Require Import ZArith String List Bool Lia.
From Stdlib Require Import DecimalString.
From Stdlib Require DecimalNat DecimalFacts.
Import ListNotations.
Open Scope string_scope.
Open Scope list_scope.

Set Implicit Arguments.

(** ** Exceptions *)

(** [WebCore::Exception], the payload of an [ExceptionOr] that failed. *)
Inductive ExceptionCode : Type :=
| DataCloneError
| InvalidStateError
| TypeErrorCode.

Record Exception : Type := mkException {
  code : ExceptionCode;
  message : string
}.

Inductive ExceptionOr (A : Type) : Type :=
| ReturnValue (a : A)
| HasException (e : Exception).
Arguments ReturnValue {A} a.
Arguments HasException {A} e.

(** What can sit in the VM's exception slot.  Each constructor is one of
    the ways this file (or the engine primitive it calls) throws. *)
Inductive JSException : Type :=
| NotEnoughArgumentsError
    (* createNotEnoughArgumentsError *)
| ScriptExecutionContextUnavailableError (interfaceName : string)
    (* throwConstructorScriptExecutionContextUnavailableError *)
| ThisTypeError (interfaceName operationName : string)
    (* IDLOperation<>::call on a receiver of the wrong class *)
| TypeError (msg : string)
    (* throwVMTypeError, throwTypeError *)
| Error (msg : string)
    (* throwVMError with a message literal *)
| PropagatedException (e : Exception)
    (* WebCore::propagateException *)
| UserException (tag : string).
    (* thrown by user code run during a conversion *)

(** ** Strings

    A [WTF::String] is its characters and whether its buffer is private to
    this string ([isolatedCopy]) or may be shared with the JavaScript heap
    of the creating thread. *)
Record WTFString : Type := mkString {
  characters : string;
  isolated : bool
}.

Definition isolatedCopy (s : WTFString) : WTFString :=
  {| characters := characters s; isolated := true |}.

Definition emptyString : WTFString := {| characters := ""; isolated := false |}.

(** ** JavaScript values *)

Inductive JSType : Type :=
| StringType
| SymbolType
| ObjectType
| FinalObjectType
| JSFunctionType
| ArrayType
| DerivedArrayType.

Definition JSType_eqb (a b : JSType) : bool :=
  match a, b with
  | StringType, StringType | SymbolType, SymbolType
  | ObjectType, ObjectType | FinalObjectType, FinalObjectType
  | JSFunctionType, JSFunctionType | ArrayType, ArrayType
  | DerivedArrayType, DerivedArrayType => true
  | _, _ => false
  end.

Inductive PropertyName : Type :=
| Identifier (s : string)
| SymbolName (description : string).

Definition PropertyName_eqb (a b : PropertyName) : bool :=
  match a, b with
  | Identifier s, Identifier t => String.eqb s t
  | SymbolName s, SymbolName t => String.eqb s t
  | _, _ => false
  end.

Definition isSymbolName (p : PropertyName) : bool :=
  match p with SymbolName _ => true | Identifier _ => false end.

Definition iteratorSymbol : PropertyName := SymbolName "Symbol.iterator".

#[warnings="-register-all"]
Inductive JSValue : Type :=
| jsUndefined
| jsNull
| jsBoolean (b : bool)
| jsNumber (n : Z)
| jsString (s : string)
| jsSymbol (description : string)
| jsObject (o : JSObject)
with JSObject : Type :=
| mkJSObject (type : JSType)
             (properties : list Property)
             (elements : list JSValue)
             (prototype : option JSObject)
             (toStringOutcome : ExceptionOrString)
with Property : Type :=
| mkProperty (name : PropertyName) (enumerable : bool) (value : JSValue)
with ExceptionOrString : Type :=
| StringResult (s : string)
| StringThrows (e : JSException).

Definition type (o : JSObject) : JSType :=
  match o with mkJSObject t _ _ _ _ => t end.
Definition properties (o : JSObject) : list Property :=
  match o with mkJSObject _ ps _ _ _ => ps end.
Definition elements (o : JSObject) : list JSValue :=
  match o with mkJSObject _ _ es _ _ => es end.
Definition prototype (o : JSObject) : option JSObject :=
  match o with mkJSObject _ _ _ p _ => p end.
Definition toStringOutcome (o : JSObject) : ExceptionOrString :=
  match o with mkJSObject _ _ _ _ r => r end.

Definition propertyName (p : Property) : PropertyName :=
  match p with mkProperty n _ _ => n end.
Definition enumerable (p : Property) : bool :=
  match p with mkProperty _ e _ => e end.
Definition value (p : Property) : JSValue :=
  match p with mkProperty _ _ v => v end.

(** *** Predicates of [JSValue] *)

Definition isUndefined (v : JSValue) : bool :=
  match v with jsUndefined => true | _ => false end.

Definition isUndefinedOrNull (v : JSValue) : bool :=
  match v with jsUndefined | jsNull => true | _ => false end.

Definition isString (v : JSValue) : bool :=
  match v with jsString _ => true | _ => false end.

Definition isObject (v : JSValue) : bool :=
  match v with jsObject _ => true | _ => false end.

Definition isCell (v : JSValue) : bool :=
  match v with jsString _ | jsSymbol _ | jsObject _ => true | _ => false end.

(** [asCell()->type()], for a value that is a cell. *)
Definition cellType (v : JSValue) : option JSType :=
  match v with
  | jsString _ => Some StringType
  | jsSymbol _ => Some SymbolType
  | jsObject o => Some (type o)
  | _ => None
  end.

(** [jsDynamicCast<JSObject*>]. *)
Definition jsDynamicCast_JSObject (v : JSValue) : option JSObject :=
  match v with jsObject o => Some o | _ => None end.

(** [jsDynamicCast<JSArray*>]: [JSArray] is the class of arrays and of the
    instances of classes that extend [Array]. *)
Definition jsDynamicCast_JSArray (o : JSObject) : option JSObject :=
  match type o with
  | ArrayType | DerivedArrayType => Some o
  | _ => None
  end.

(** [getCallData(...).type != CallData::Type::None]. *)
Definition isCallable (v : JSValue) : bool :=
  match v with
  | jsObject o => JSType_eqb (type o) JSFunctionType
  | _ => false
  end.

(** [JSValue::toBoolean]. *)
Definition toBoolean (v : JSValue) : bool :=
  match v with
  | jsUndefined | jsNull => false
  | jsBoolean b => b
  | jsNumber n => negb (n =? 0)%Z
  | jsString s => negb (String.eqb s "")
  | jsSymbol _ | jsObject _ => true
  end.

(** *** Property lookup *)

(** The name of the index [i]: its decimal digits. *)
Definition indexName (i : nat) : string :=
  NilZero.string_of_uint (Nat.to_uint i).

(** The index a property name denotes among [n] elements, if any. *)
Definition indexOf (n : nat) (p : PropertyName) : option nat :=
  match p with
  | Identifier k => find (fun i => String.eqb (indexName i) k) (seq 0 n)
  | SymbolName _ => None
  end.

(** The own property of that name: an element, for the name of an index
    below the length, or a named property. *)
Definition getOwnProperty (ps : list Property) (es : list JSValue)
    (p : PropertyName) : option JSValue :=
  match indexOf (List.length es) p with
  | Some i => Some (nth i es jsUndefined)
  | None =>
      option_map value (find (fun q => PropertyName_eqb (propertyName q) p) ps)
  end.

(** [JSObject::getIfPropertyExists]: the value of the property, looked up
    on the object and then along its prototype chain; [None] is the empty
    [JSValue] returned when there is no such property. *)
Fixpoint getIfPropertyExists (o : JSObject) (p : PropertyName) : option JSValue :=
  match o with
  | mkJSObject _ ps es proto _ =>
      match getOwnProperty ps es p with
      | Some v => Some v
      | None =>
          match proto with
          | Some parent => getIfPropertyExists parent p
          | None => None
          end
      end
  end.

(** [JSObject::get]: as above, [undefined] for a missing property. *)
Definition get (o : JSObject) (p : PropertyName) : JSValue :=
  match getIfPropertyExists o p with
  | Some v => v
  | None => jsUndefined
  end.

(** [JSArray::length] and the indexed [get]. *)
Definition length (o : JSObject) : nat := List.length (elements o).
Definition getIndex (o : JSObject) (i : nat) : JSValue :=
  nth i (elements o) jsUndefined.

(** [getOwnPropertyNames] with [PropertyNameMode::Strings] and
    [DontEnumPropertiesMode::Exclude]: the names of the indices, then the
    own enumerable properties named by a string, each name once
    ([PropertyNameArray] holds no duplicate). *)
Fixpoint addPropertyNames (ps : list Property) (keys : list string) : list string :=
  match ps with
  | [] => keys
  | mkProperty (Identifier k) true _ :: rest =>
      addPropertyNames rest
        (if existsb (String.eqb k) keys then keys else keys ++ [k])
  | _ :: rest => addPropertyNames rest keys
  end.

Definition getOwnPropertyNames (o : JSObject) : list string :=
  addPropertyNames (properties o)
                   (map indexName (seq 0 (List.length (elements o)))).

(** ** The throw scope

    A host function runs against the VM's exception slot.  Throwing fills
    the slot and execution goes on; [RETURN_IF_EXCEPTION] leaves the
    function when the slot is full.  [Host R A] is a step of a function
    whose return type is [R]: it either continues with an [A] or has
    returned an [R]. *)

Definition ThrowScope : Type := option JSException.

Inductive Flow (R A : Type) : Type :=
| Continue (a : A)
| Return (r : R).
Arguments Continue {R A} a.
Arguments Return {R A} r.

Definition Host (R A : Type) : Type := ThrowScope -> Flow R A * ThrowScope.

Definition ret {R A} (a : A) : Host R A := fun s => (Continue a, s).

Definition bind {R A B} (m : Host R A) (k : A -> Host R B) : Host R B :=
  fun s =>
    match m s with
    | (Continue a, s') => k a s'
    | (Return r, s') => (Return r, s')
    end.

Declare Scope host_scope.
Delimit Scope host_scope with host.
Notation "x <- m ;; k" := (bind m (fun x => k))
  (at level 61, m at next level, right associativity) : host_scope.
Notation "m ;; k" := (bind m (fun _ => k))
  (at level 61, right associativity) : host_scope.
Open Scope host_scope.

(** [return r;] *)
Definition returnWith {R A} (r : R) : Host R A := fun s => (Return r, s).

(** [scope.exception()] *)
Definition exception {R} : Host R (option JSException) :=
  fun s => (Continue s, s).

(** [throwException]: fills the slot. *)
Definition throwException {R} (e : JSException) : Host R unit :=
  fun _ => (Continue tt, Some e).

(** [RETURN_IF_EXCEPTION(scope, r)] *)
Definition RETURN_IF_EXCEPTION {R} (r : R) : Host R unit :=
  fun s =>
    match s with
    | Some _ => (Return r, s)
    | None => (Continue tt, s)
    end.

(** [RELEASE_AND_RETURN(scope, f(...))]: the function returns what [f]
    returns, [f] running against the same exception slot. *)
Definition RELEASE_AND_RETURN {R A} (f : Host R R) : Host R A :=
  fun s =>
    match f s with
    | (Continue r, s') => (Return r, s')
    | (Return r, s') => (Return r, s')
    end.

(** [WebCore::propagateException]: throws the exception unless one is
    pending already. *)
Definition propagateException {R} (e : Exception) : Host R unit :=
  fun s =>
    match s with
    | Some _ => (Continue tt, s)
    | None => (Continue tt, Some (PropagatedException e))
    end.

(** A host function is entered with an empty exception slot; its caller
    sees the returned value and the slot. *)
Definition hostCall {R} (body : Host R R) : R * ThrowScope :=
  match body None with
  | (Continue r, s) => (r, s)
  | (Return r, s) => (r, s)
  end.

(** ** Conversions that can throw *)

Definition numberToString (n : Z) : string :=
  NilZero.string_of_int (Z.to_int n).

(** [JSValue::toWTFString].  The string of a failed conversion is empty and
    the exception is pending. *)
Definition toWTFString {R} (v : JSValue) : Host R WTFString :=
  match v with
  | jsUndefined => ret (mkString "undefined" false)
  | jsNull => ret (mkString "null" false)
  | jsBoolean true => ret (mkString "true" false)
  | jsBoolean false => ret (mkString "false" false)
  | jsNumber n => ret (mkString (numberToString n) false)
  | jsString s => ret (mkString s false)
  | jsSymbol _ =>
      throwException (TypeError "Cannot convert a symbol to a string") ;;
      ret emptyString
  | jsObject o =>
      match toStringOutcome o with
      | StringResult s => ret (mkString s false)
      | StringThrows e => throwException e ;; ret emptyString
      end
  end.

(** [convert<IDLUSVString>] *)
Definition convert_IDLUSVString {R} (v : JSValue) : Host R WTFString :=
  toWTFString v.

(** [convert<IDLAny>] *)
Definition convert_IDLAny (v : JSValue) : JSValue := v.

(** [JSObject::getMethod]: [undefined] for a missing, undefined or null
    property, a [TypeError] for a value that cannot be called. *)
Definition getMethod {R} (o : JSObject) (p : PropertyName) (errorMessage : string)
  : Host R JSValue :=
  let method := get o p in
  if negb (isCell method) then
    if isUndefinedOrNull method then ret jsUndefined
    else throwException (TypeError errorMessage) ;; ret jsUndefined
  else if negb (isCallable method) then
    throwException (TypeError errorMessage) ;; ret jsUndefined
  else ret method.

(** [hasIteratorMethod] *)
Definition hasIteratorMethod {R} (v : JSValue) : Host R bool :=
  match v with
  | jsObject object =>
      applyMethod <- getMethod object iteratorSymbol
                       "Symbol.iterator property should be callable" ;;
      e <- exception ;;
      match e with
      | Some _ => ret false
      | None => ret (negb (isUndefined applyMethod))
      end
  | _ => ret false
  end.

(** The loop of [forEachInIterable] over the values it is about to hand
    over: the callback sees them in order, and the iteration stops after
    the first call that leaves an exception pending.  The vector the
    source's callback captures and appends to is the accumulator. *)
Fixpoint forEachInList {R S} (values : list JSValue)
    (callback : S -> JSValue -> Host R S) (acc : S) : Host R S :=
  match values with
  | [] => ret acc
  | nextValue :: rest =>
      acc' <- callback acc nextValue ;;
      e <- exception ;;
      match e with
      | Some _ => ret acc'
      | None => forEachInList rest callback acc'
      end
  end.

(** [IterationMode] *)
Inductive IterationMode : Type :=
| FastArray
| Generic.

(** What running an iterator comes to: the values it yields, in order,
    and the exception that ends it when it does not end by itself. *)
Record Iteration : Type := mkIteration {
  yielded : list JSValue;
  thrown : option JSException
}.

(** ** [HashMap<String, String>]

    The entries in the order they were added; a key is looked up by its
    characters.  [add] leaves the map alone when the key is there. *)
Definition HashMap : Type := list (WTFString * WTFString).

Definition HashMap_get (m : HashMap) (k : string) : option WTFString :=
  option_map snd (find (fun kv => String.eqb (characters (fst kv)) k) m).

Definition HashMap_contains (m : HashMap) (k : string) : bool :=
  existsb (fun kv => String.eqb (characters (fst kv)) k) m.

Definition HashMap_add (k v : WTFString) (m : HashMap) : HashMap :=
  if HashMap_contains m (characters k) then m else m ++ [(k, v)].

(** ** The call frame and the global object *)

Record ScriptExecutionContext : Type := mkContext {
  identifier : Z
}.

(** [Zig::GlobalObject]: the lazily created [process.env] object is there
    once it has been initialised. *)
Record GlobalObject : Type := mkGlobalObject {
  m_processEnvObject : option JSObject
}.

Record JSWorkerDOMConstructor : Type := mkConstructor {
  scriptExecutionContext : option ScriptExecutionContext
}.

Record CallFrame : Type := mkCallFrame {
  arguments : list JSValue
}.

Definition argumentCount (callFrame : CallFrame) : nat :=
  List.length (arguments callFrame).

(** [CallFrame::argument]: [undefined] past the last argument. *)
Definition argument (callFrame : CallFrame) (i : nat) : JSValue :=
  nth i (arguments callFrame) jsUndefined.

(** [CallFrame::uncheckedArgument]: only called below the argument count. *)
Definition uncheckedArgument (callFrame : CallFrame) (i : nat) : JSValue :=
  nth i (arguments callFrame) jsUndefined.

(** ** The collaborators

    The structured-clone serializer, the message ports, the sequence
    conversion of the bindings, the thread behind a worker and the
    iterators that user code defines are outside this file.  The functions
    below are what the binding calls; nothing is assumed about what they
    return. *)
Class Collaborators : Type := {
  SerializedScriptValue : Type;
  MessagePort : Type;
  TransferredMessagePort : Type;
  (** [SerializedScriptValue::create]: the snapshot and the ports found in
      the transfer list, or the exception. *)
  SerializedScriptValue_create :
    JSValue -> list JSObject ->
    ExceptionOr (SerializedScriptValue * list MessagePort);
  (** [MessagePort::disentanglePorts] *)
  MessagePort_disentanglePorts :
    list MessagePort -> ExceptionOr (list TransferredMessagePort);
  (** [convert<IDLSequence<IDLObject>>]: the objects of the sequence, or
      the exception the conversion throws. *)
  convert_IDLSequence_IDLObject : JSValue -> list JSObject + JSException;
  (** The creation of the native thread object behind [Worker::create]:
      the client identifier it is given, or the exception. *)
  WebWorker_create :
    ScriptExecutionContext -> WTFString -> ExceptionOr Z;
  (** The start of the thread behind [Worker::updatePtr], by the client
      identifier of the worker. *)
  WebWorker_updatePtr : Z -> bool;
  (** [setSubclassStructureIfNeeded]: the exception it throws, if any. *)
  setSubclassStructureIfNeeded : CallFrame -> option JSException;
  (** The object is the [Array.prototype] of the global object, and
      nothing has touched the iteration of arrays
      ([isArrayPrototypeIteratorProtocolFastAndNonObservable]). *)
  isArrayPrototypeWithFastIteration : JSObject -> bool;
  (** Calling the [Symbol.iterator] method of an iterable and stepping
      the iterator it returns until it is done or throws. *)
  iteratorProtocol : JSValue -> JSValue -> Iteration
}.

Section JSWorker.

Context `{Collaborators}.

(** [WorkerOptions], with the fields of its [bun] member flattened. *)
Record WorkerOptions : Type := mkWorkerOptions {
  name : WTFString;
  bun_mini : bool;
  bun_unref : bool;
  bun_data : option SerializedScriptValue;
  bun_dataMessagePorts : list TransferredMessagePort;
  bun_env : option HashMap;
  bun_argv : option (list WTFString);
  bun_execArgv : option (list WTFString)
}.

(** [WorkerOptions {}] *)
Definition WorkerOptions_default : WorkerOptions :=
  {| name := emptyString; bun_mini := false; bun_unref := false;
     bun_data := None; bun_dataMessagePorts := [];
     bun_env := None; bun_argv := None; bun_execArgv := None |}.

Definition set_name (s : WTFString) (o : WorkerOptions) : WorkerOptions :=
  {| name := s; bun_mini := bun_mini o; bun_unref := bun_unref o;
     bun_data := bun_data o; bun_dataMessagePorts := bun_dataMessagePorts o;
     bun_env := bun_env o; bun_argv := bun_argv o;
     bun_execArgv := bun_execArgv o |}.

Definition set_bun_mini (b : bool) (o : WorkerOptions) : WorkerOptions :=
  {| name := name o; bun_mini := b; bun_unref := bun_unref o;
     bun_data := bun_data o; bun_dataMessagePorts := bun_dataMessagePorts o;
     bun_env := bun_env o; bun_argv := bun_argv o;
     bun_execArgv := bun_execArgv o |}.

Definition set_bun_unref (b : bool) (o : WorkerOptions) : WorkerOptions :=
  {| name := name o; bun_mini := bun_mini o; bun_unref := b;
     bun_data := bun_data o; bun_dataMessagePorts := bun_dataMessagePorts o;
     bun_env := bun_env o; bun_argv := bun_argv o;
     bun_execArgv := bun_execArgv o |}.

Definition set_bun_data (d : SerializedScriptValue)
    (ports : list TransferredMessagePort) (o : WorkerOptions) : WorkerOptions :=
  {| name := name o; bun_mini := bun_mini o; bun_unref := bun_unref o;
     bun_data := Some d; bun_dataMessagePorts := ports;
     bun_env := bun_env o; bun_argv := bun_argv o;
     bun_execArgv := bun_execArgv o |}.

Definition set_bun_env (env : HashMap) (o : WorkerOptions) : WorkerOptions :=
  {| name := name o; bun_mini := bun_mini o; bun_unref := bun_unref o;
     bun_data := bun_data o; bun_dataMessagePorts := bun_dataMessagePorts o;
     bun_env := Some env; bun_argv := bun_argv o;
     bun_execArgv := bun_execArgv o |}.

Definition set_bun_argv (argv : list WTFString) (o : WorkerOptions) : WorkerOptions :=
  {| name := name o; bun_mini := bun_mini o; bun_unref := bun_unref o;
     bun_data := bun_data o; bun_dataMessagePorts := bun_dataMessagePorts o;
     bun_env := bun_env o; bun_argv := Some argv;
     bun_execArgv := bun_execArgv o |}.

Definition set_bun_execArgv (execArgv : list WTFString) (o : WorkerOptions)
  : WorkerOptions :=
  {| name := name o; bun_mini := bun_mini o; bun_unref := bun_unref o;
     bun_data := bun_data o; bun_dataMessagePorts := bun_dataMessagePorts o;
     bun_env := bun_env o; bun_argv := bun_argv o;
     bun_execArgv := Some execArgv |}.

(** [StructuredSerializeOptions] *)
Record StructuredSerializeOptions : Type := mkSerializeOptions {
  transfer : list JSObject
}.

(** ** The native [Worker] *)

(** Modelled from the spec: the class [Worker] (Worker.h, Worker.cpp) is
    not part of the sources.  The fields are those of the WorkerHandle of
    the data model: the identifier, the options snapshot, [keepAlive],
    [stopped], [hasPendingActivity]; the three event-handler slots; the
    request to terminate; the queue of serialized messages handed to the
    thread. *)
Record Worker : Type := mkWorker {
  clientIdentifier : Z;
  options : WorkerOptions;
  keepAlive : bool;
  terminateRequested : bool;
  isContextStopped : bool;
  hasPendingActivity : bool;
  onmessage : option JSValue;
  onmessageerror : option JSValue;
  onerror : option JSValue;
  outbox : list (SerializedScriptValue * list TransferredMessagePort)
}.

(** Modelled from the spec: [Worker::create] is not part of the sources.
    The collaborator assigns the client identifier; the options are the
    snapshot; [unref] is the inverse of the initial [keepAlive]; no handler
    is set and nothing is queued. *)
Definition Worker_create (context : ScriptExecutionContext)
    (scriptUrl : WTFString) (options : WorkerOptions) : ExceptionOr Worker :=
  match WebWorker_create context scriptUrl with
  | HasException e => HasException e
  | ReturnValue id =>
      ReturnValue
        {| clientIdentifier := id; options := options;
           keepAlive := negb (bun_unref options);
           terminateRequested := false;
           isContextStopped := false; hasPendingActivity := true;
           onmessage := None; onmessageerror := None; onerror := None;
           outbox := [] |}
  end.

(** Modelled from the spec: [Worker::updatePtr] is not part of the sources.
    It asks the collaborator to start the thread and tells whether that
    worked. *)
Definition updatePtr (impl : Worker) : bool :=
  WebWorker_updatePtr (clientIdentifier impl).

(** Modelled from the spec: [Worker::setKeepAlive] is not part of the
    sources.  It sets [keepAlive]. *)
Definition setKeepAlive (b : bool) (impl : Worker) : Worker :=
  {| clientIdentifier := clientIdentifier impl; options := options impl;
     keepAlive := b;
     terminateRequested := terminateRequested impl;
     isContextStopped := isContextStopped impl;
     hasPendingActivity := hasPendingActivity impl;
     onmessage := onmessage impl; onmessageerror := onmessageerror impl;
     onerror := onerror impl; outbox := outbox impl |}.

(** Modelled from the spec: [Worker::terminate] is not part of the sources.
    It records the request to stop the thread; the thread exits later. *)
Definition terminate (impl : Worker) : Worker :=
  {| clientIdentifier := clientIdentifier impl; options := options impl;
     keepAlive := keepAlive impl;
     terminateRequested := true;
     isContextStopped := isContextStopped impl;
     hasPendingActivity := hasPendingActivity impl;
     onmessage := onmessage impl; onmessageerror := onmessageerror impl;
     onerror := onerror impl; outbox := outbox impl |}.

(** Modelled from the spec: the queue of the channel is not part of the
    sources.  Messages are delivered in the order they were queued. *)
Definition enqueue (m : SerializedScriptValue * list TransferredMessagePort)
    (impl : Worker) : Worker :=
  {| clientIdentifier := clientIdentifier impl; options := options impl;
     keepAlive := keepAlive impl;
     terminateRequested := terminateRequested impl;
     isContextStopped := isContextStopped impl;
     hasPendingActivity := hasPendingActivity impl;
     onmessage := onmessage impl; onmessageerror := onmessageerror impl;
     onerror := onerror impl; outbox := outbox impl ++ [m] |}.

(** Modelled from the spec: [Worker::postMessage] is not part of the
    sources.  Both overloads serialize the message with the transfer list,
    disentangle the ports and queue the result; a failure is the
    exception, and nothing is queued. *)
Definition postMessage (impl : Worker) (message : JSValue)
    (options : StructuredSerializeOptions) : ExceptionOr Worker :=
  match SerializedScriptValue_create message (transfer options) with
  | HasException e => HasException e
  | ReturnValue (serialized, ports) =>
      match MessagePort_disentanglePorts ports with
      | HasException e => HasException e
      | ReturnValue transferredPorts =>
          ReturnValue (enqueue (serialized, transferredPorts) impl)
      end
  end.

Definition postMessage_transfer (impl : Worker) (message : JSValue)
    (transfer : list JSObject) : ExceptionOr Worker :=
  postMessage impl message {| transfer := transfer |}.

Inductive EventName : Type :=
| messageEvent
| messageerrorEvent
| errorEvent.

(** Modelled from the spec: [eventHandlerAttribute] is not part of the
    sources.  Each event has one slot; reading an empty slot gives null. *)
Definition eventHandlerAttribute (impl : Worker) (e : EventName) : JSValue :=
  match match e with
        | messageEvent => onmessage impl
        | messageerrorEvent => onmessageerror impl
        | errorEvent => onerror impl
        end with
  | Some v => v
  | None => jsNull
  end.

(** Modelled from the spec: [setEventHandlerAttribute] is not part of the
    sources.  Setting a handler replaces what was in the slot. *)
Definition setEventHandlerAttribute (impl : Worker) (e : EventName)
    (v : JSValue) : Worker :=
  {| clientIdentifier := clientIdentifier impl; options := options impl;
     keepAlive := keepAlive impl;
     terminateRequested := terminateRequested impl;
     isContextStopped := isContextStopped impl;
     hasPendingActivity := hasPendingActivity impl;
     onmessage := match e with messageEvent => Some v | _ => onmessage impl end;
     onmessageerror :=
       match e with messageerrorEvent => Some v | _ => onmessageerror impl end;
     onerror := match e with errorEvent => Some v | _ => onerror impl end;
     outbox := outbox impl |}.

(** The wrapper of a [Worker]. *)
Record JSWorker : Type := mkJSWorker {
  wrapped : Worker
}.

(** [JSValue::decode(thisValue)]: the receiver is a [JSWorker] cell or
    some other value. *)
Inductive ThisValue : Type :=
| thisWorker (w : JSWorker)
| thisOther (v : JSValue).

(** [jsDynamicCast<JSWorker*>] *)
Definition jsDynamicCast_JSWorker (thisValue : ThisValue) : option JSWorker :=
  match thisValue with
  | thisWorker w => Some w
  | thisOther _ => None
  end.

(** ** The constructor *)

(** [encodedJSValue()] is [None]; [JSValue::encode(jsValue)] of the new
    wrapper is [Some]. *)
Definition EncodedJSWorker : Type := option JSWorker.

(** [throwVMError]: throws, and the caller returns the empty value. *)
Definition throwVMError {R A} (empty : R) (e : JSException) : Host R A :=
  throwException e ;; returnWith empty.

(** [throwVMTypeError] without a message. *)
Definition throwVMTypeError {R A} (empty : R) : Host R A :=
  throwVMError empty (TypeError "Type error").

Definition throwConstructorScriptExecutionContextUnavailableError {R A}
    (empty : R) (interfaceName : string) : Host R A :=
  throwVMError empty (ScriptExecutionContextUnavailableError interfaceName).

(** Lines 134-139: the [name] option. *)
Definition construct_name (optionsObject : JSObject) (options : WorkerOptions)
  : Host EncodedJSWorker WorkerOptions :=
  match getIfPropertyExists optionsObject (Identifier "name") with
  | Some nameValue =>
      if isString nameValue then
        s <- toWTFString nameValue ;;
        RETURN_IF_EXCEPTION None ;;
        ret (set_name s options)
      else ret options
  | None => ret options
  end.

(** Lines 141-144: the [smol] option. *)
Definition construct_smol (optionsObject : JSObject) (options : WorkerOptions)
  : Host EncodedJSWorker WorkerOptions :=
  match getIfPropertyExists optionsObject (Identifier "smol") with
  | Some miniModeValue =>
      let options := set_bun_mini (toBoolean miniModeValue) options in
      RETURN_IF_EXCEPTION None ;;
      ret options
  | None => ret options
  end.

(** Lines 146-149: the [ref] option. *)
Definition construct_ref (optionsObject : JSObject) (options : WorkerOptions)
  : Host EncodedJSWorker WorkerOptions :=
  match getIfPropertyExists optionsObject (Identifier "ref") with
  | Some ref =>
      let options := set_bun_unref (negb (toBoolean ref)) options in
      RETURN_IF_EXCEPTION None ;;
      ret options
  | None => ret options
  end.

(** Lines 151-154: [workerData], and [data] when there is no [workerData]. *)
Definition construct_workerDataValue (optionsObject : JSObject) : option JSValue :=
  match getIfPropertyExists optionsObject (Identifier "workerData") with
  | Some workerData => Some workerData
  | None => getIfPropertyExists optionsObject (Identifier "data")
  end.

(** Lines 158-173: the transfer list read from the [transferList] option. *)
Definition construct_transferList (optionsObject : JSObject) : list JSObject :=
  match getIfPropertyExists optionsObject (Identifier "transferList") with
  | Some transferListValue =>
      match transferListValue with
      | jsObject transferListObject =>
          match jsDynamicCast_JSArray transferListObject with
          | Some transferListArray =>
              fold_left
                (fun transferList i =>
                   match getIndex transferListArray i with
                   | jsObject transferListObject =>
                       transferList ++ [transferListObject]
                   | _ => transferList
                   end)
                (seq 0 (length transferListArray)) []
          | None => []
          end
      | _ => []
      end
  | None => []
  end.

(** Lines 175-193: the payload is serialized with the transfer list and
    the ports are disentangled. *)
Definition construct_serialize (workerData : JSValue)
    (transferList : list JSObject) (options : WorkerOptions)
  : Host EncodedJSWorker WorkerOptions :=
  match SerializedScriptValue_create workerData transferList with
  | HasException e =>
      propagateException e ;;
      returnWith None
  | ReturnValue (serialized, ports) =>
      transferredPorts <-
        match ports with
        | [] => ret []
        | _ :: _ =>
            match MessagePort_disentanglePorts ports with
            | HasException e =>
                propagateException e ;;
                returnWith None
            | ReturnValue transferredPorts => ret transferredPorts
            end
        end ;;
      ret (set_bun_data serialized transferredPorts options)
  end.

(** Lines 151-194: the initial payload. *)
Definition construct_workerData (optionsObject : JSObject) (options : WorkerOptions)
  : Host EncodedJSWorker WorkerOptions :=
  match construct_workerDataValue optionsObject with
  | Some workerData =>
      let transferList := construct_transferList optionsObject in
      construct_serialize workerData transferList options
  | None => ret options
  end.

(** Lines 219-225: the loop over the keys of the environment object. *)
Fixpoint construct_envLoop (envObject : JSObject) (keys : list string)
    (env : HashMap) : Host EncodedJSWorker HashMap :=
  match keys with
  | [] => ret env
  | key :: rest =>
      let value := get envObject (Identifier key) in
      RETURN_IF_EXCEPTION None ;;
      str <- toWTFString value ;;
      let str := isolatedCopy str in
      RETURN_IF_EXCEPTION None ;;
      construct_envLoop envObject rest
        (HashMap_add (isolatedCopy (mkString key false)) str env)
  end.

(** Lines 196-228: the [env] option.  The objects of the model have no
    unreified static property, so lines 208-211 do nothing. *)
Definition construct_env (globalObject : GlobalObject)
    (optionsObject : JSObject) (options : WorkerOptions)
  : Host EncodedJSWorker WorkerOptions :=
  let envValue := getIfPropertyExists optionsObject (Identifier "env") in
  RETURN_IF_EXCEPTION None ;;
  let envObject :=
    match envValue with
    | Some v =>
        if isCell v then jsDynamicCast_JSObject v
        else m_processEnvObject globalObject
    | None => m_processEnvObject globalObject
    end in
  match envObject with
  | Some envObject =>
      let keys := getOwnPropertyNames envObject in
      RETURN_IF_EXCEPTION None ;;
      env <- construct_envLoop envObject keys [] ;;
      ret (set_bun_env env options)
  | None => ret options
  end.

(** [JSArray::isIteratorProtocolFastAndNonObservable]: the prototype of
    the array is the untouched [Array.prototype] and the array has no
    [Symbol.iterator] property of its own, so that iterating it is
    reading its elements. *)
Definition isIteratorProtocolFastAndNonObservable (array : JSObject) : bool :=
  match prototype array with
  | Some arrayPrototype =>
      isArrayPrototypeWithFastIteration arrayPrototype &&
      match getOwnProperty (properties array) (elements array) iteratorSymbol with
      | Some _ => false
      | None => true
      end
  | None => false
  end.

(** [getIterationMode] *)
Definition getIterationMode (iterable : JSValue) : IterationMode :=
  match iterable with
  | jsObject o =>
      match jsDynamicCast_JSArray o with
      | Some array =>
          if isIteratorProtocolFastAndNonObservable array then FastArray
          else Generic
      | None => Generic
      end
  | _ => Generic
  end.

(** [iteratorForIterable]: a [TypeError] unless the [Symbol.iterator]
    property can be called; the iterator it returns is stepped by
    [iteratorProtocol].  The source only iterates cells. *)
Definition iteratorForIterable {R} (iterable : JSValue)
  : Host R (option Iteration) :=
  match iterable with
  | jsObject o =>
      let iteratorFunction := get o iteratorSymbol in
      if negb (isCallable iteratorFunction) then
        throwException (TypeError "Type error") ;; ret None
      else ret (Some (iteratorProtocol iteratorFunction iterable))
  | _ => throwException (TypeError "Type error") ;; ret None
  end.

(** [forEachInIterable]: the elements by index in the fast mode; otherwise
    the values of the iterator, until it is done, it throws, or the
    callback leaves an exception pending. *)
Definition forEachInIterable {R S} (iterable : JSValue)
    (callback : S -> JSValue -> Host R S) (acc : S) : Host R S :=
  match getIterationMode iterable, iterable with
  | FastArray, jsObject array => forEachInList (elements array) callback acc
  | _, _ =>
      iterationRecord <- iteratorForIterable iterable ;;
      e <- exception ;;
      match e, iterationRecord with
      | None, Some iteration =>
          acc <- forEachInList (yielded iteration) callback acc ;;
          e <- exception ;;
          match e, thrown iteration with
          | None, Some x => throwException x ;; ret acc
          | _, _ => ret acc
          end
      | _, _ => ret acc
      end
  end.

(** Lines 234-240 and 248-254: the callback given to [forEachInIterable]. *)
Definition construct_appendString (argv : list WTFString) (nextValue : JSValue)
  : Host EncodedJSWorker (list WTFString) :=
  str <- toWTFString nextValue ;;
  let str := isolatedCopy str in
  e <- exception ;;
  match e with
  | Some _ => ret argv
  | None => ret (argv ++ [str])
  end.

(** The test of lines 232 and 246: a cell of type [ArrayType]. *)
Definition isArrayTyped (v : JSValue) : bool :=
  isCell v &&
  match cellType v with
  | Some t => JSType_eqb t ArrayType
  | None => false
  end.

(** Lines 230-242: the [argv] option. *)
Definition construct_argv (optionsObject : JSObject) (options : WorkerOptions)
  : Host EncodedJSWorker WorkerOptions :=
  let argvValue := getIfPropertyExists optionsObject (Identifier "argv") in
  RETURN_IF_EXCEPTION None ;;
  match argvValue with
  | Some argvValue =>
      if isArrayTyped argvValue then
        argv <- forEachInIterable argvValue construct_appendString [] ;;
        ret (set_bun_argv argv options)
      else ret options
  | None => ret options
  end.

(** Lines 244-256: the [execArgv] option. *)
Definition construct_execArgv (optionsObject : JSObject) (options : WorkerOptions)
  : Host EncodedJSWorker WorkerOptions :=
  let execArgvValue := getIfPropertyExists optionsObject (Identifier "execArgv") in
  RETURN_IF_EXCEPTION None ;;
  match execArgvValue with
  | Some execArgvValue =>
      if isArrayTyped execArgvValue then
        execArgv <- forEachInIterable execArgvValue construct_appendString [] ;;
        ret (set_bun_execArgv execArgv options)
      else ret options
  | None => ret options
  end.

(** Lines 130-257: the options read from the second argument. *)
Definition construct_options (globalObject : GlobalObject) (argument1 : JSValue)
  : Host EncodedJSWorker WorkerOptions :=
  let options := set_bun_unref false WorkerOptions_default in
  match jsDynamicCast_JSObject argument1 with
  | Some optionsObject =>
      options <- construct_name optionsObject options ;;
      options <- construct_smol optionsObject options ;;
      options <- construct_ref optionsObject options ;;
      options <- construct_workerData optionsObject options ;;
      options <- construct_env globalObject optionsObject options ;;
      options <- construct_argv optionsObject options ;;
      construct_execArgv optionsObject options
  | None => ret options
  end.

(** [toJSNewlyCreated<IDLInterface<Worker>>] of an [ExceptionOr]: the
    wrapper, or the exception propagated and the empty value. *)
Definition toJSNewlyCreated {R} (object : ExceptionOr Worker)
  : Host R (option JSWorker) :=
  match object with
  | HasException e => propagateException e ;; ret None
  | ReturnValue impl => ret (Some {| wrapped := impl |})
  end.

(** [JSWorkerDOMConstructor::construct], lines 114-278.  [castedThis] is
    the callee of the call frame. *)
Definition construct_body (lexicalGlobalObject : GlobalObject)
    (castedThis : JSWorkerDOMConstructor) (callFrame : CallFrame)
  : Host EncodedJSWorker EncodedJSWorker :=
  if (argumentCount callFrame <? 1)%nat then
    throwVMError None NotEnoughArgumentsError
  else
    match scriptExecutionContext castedThis with
    | None =>
        throwConstructorScriptExecutionContextUnavailableError None "Worker"
    | Some context =>
        let argument0 := uncheckedArgument callFrame 0 in
        scriptUrl <- convert_IDLUSVString argument0 ;;
        RETURN_IF_EXCEPTION None ;;
        let argument1 := argument callFrame 1 in
        options <- construct_options lexicalGlobalObject argument1 ;;
        RETURN_IF_EXCEPTION None ;;
        let object := Worker_create context scriptUrl options in
        jsValue <- toJSNewlyCreated object ;;
        RETURN_IF_EXCEPTION None ;;
        match jsValue with
        | None => returnWith None
        | Some jsValue =>
            let impl := wrapped jsValue in
            if negb (updatePtr impl) then
              throwVMError None (Error "Failed to start Worker thread")
            else
              match setSubclassStructureIfNeeded callFrame with
              | Some e => throwException e
              | None => ret tt
              end ;;
              RETURN_IF_EXCEPTION None ;;
              returnWith (Some jsValue)
        end
    end.

Definition construct (lexicalGlobalObject : GlobalObject)
    (castedThis : JSWorkerDOMConstructor) (callFrame : CallFrame)
  : EncodedJSWorker * ThrowScope :=
  hostCall (construct_body lexicalGlobalObject castedThis callFrame).

(** ** The [threadId] getter, lines 297-308 *)

Definition jsWorker_threadIdGetter (thisValue : ThisValue) : JSValue :=
  match jsDynamicCast_JSWorker thisValue with
  | None => jsUndefined
  | Some castedThis => jsNumber (clientIdentifier (wrapped castedThis) - 1)
  end.

(** ** The event-handler attributes, lines 369-448 *)

Definition jsWorker_onmessageGetter (thisObject : JSWorker) : JSValue :=
  eventHandlerAttribute (wrapped thisObject) messageEvent.

Definition setJSWorker_onmessageSetter (thisObject : JSWorker) (value : JSValue)
  : bool * JSWorker :=
  (true,
   {| wrapped := setEventHandlerAttribute (wrapped thisObject) messageEvent value |}).

Definition jsWorker_onmessageerrorGetter (thisObject : JSWorker) : JSValue :=
  eventHandlerAttribute (wrapped thisObject) messageerrorEvent.

Definition setJSWorker_onmessageerrorSetter (thisObject : JSWorker)
    (value : JSValue) : bool * JSWorker :=
  (true,
   {| wrapped :=
        setEventHandlerAttribute (wrapped thisObject) messageerrorEvent value |}).

Definition jsWorker_onerrorGetter (thisObject : JSWorker) : JSValue :=
  eventHandlerAttribute (wrapped thisObject) errorEvent.

Definition setJSWorker_onerrorSetter (thisObject : JSWorker) (value : JSValue)
  : bool * JSWorker :=
  (true,
   {| wrapped := setEventHandlerAttribute (wrapped thisObject) errorEvent value |}).

(** ** The prototype functions, lines 450-560

    A prototype function returns the encoded value ([None] is the empty
    value) and leaves the wrapper in a new state. *)
Definition HandleResult : Type := option JSValue * JSWorker.

(** [toJS<IDLUndefined>] of a call on the wrapped object: [undefined], or
    the exception propagated and the empty value. *)
Definition toJS_IDLUndefined (castedThis : JSWorker) (result : ExceptionOr Worker)
  : Host HandleResult HandleResult :=
  match result with
  | HasException e => propagateException e ;; ret (None, castedThis)
  | ReturnValue impl => ret (Some jsUndefined, {| wrapped := impl |})
  end.

(** [convert<IDLSequence<IDLObject>>] against the throw scope. *)
Definition convert_sequence {R} (v : JSValue) : Host R (list JSObject) :=
  match convert_IDLSequence_IDLObject v with
  | inl objects => ret objects
  | inr e => throwException e ;; ret []
  end.

Definition jsWorkerPrototypeFunction_terminateBody (castedThis : JSWorker)
    (callFrame : CallFrame) : Host HandleResult HandleResult :=
  let impl := wrapped castedThis in
  RELEASE_AND_RETURN
    (toJS_IDLUndefined castedThis (ReturnValue (terminate impl))).

Definition jsWorkerPrototypeFunction_postMessage1Body (castedThis : JSWorker)
    (callFrame : CallFrame) : Host HandleResult HandleResult :=
  let impl := wrapped castedThis in
  let argument0 := uncheckedArgument callFrame 0 in
  let message := convert_IDLAny argument0 in
  RETURN_IF_EXCEPTION (None, castedThis) ;;
  let argument1 := uncheckedArgument callFrame 1 in
  transfer <- convert_sequence argument1 ;;
  RETURN_IF_EXCEPTION (None, castedThis) ;;
  RELEASE_AND_RETURN
    (toJS_IDLUndefined castedThis (postMessage_transfer impl message transfer)).

Definition jsWorkerPrototypeFunction_postMessage2Body (castedThis : JSWorker)
    (callFrame : CallFrame) : Host HandleResult HandleResult :=
  let impl := wrapped castedThis in
  let argument0 := uncheckedArgument callFrame 0 in
  let message := convert_IDLAny argument0 in
  RETURN_IF_EXCEPTION (None, castedThis) ;;
  let argument1 := argument callFrame 1 in
  let optionsValue := argument1 in
  let options := {| transfer := [] |} in
  options <-
    match optionsValue with
    | jsObject optionsObject =>
        match getIfPropertyExists optionsObject (Identifier "transfer") with
        | Some transferListValue =>
            transferList <- convert_sequence transferListValue ;;
            RETURN_IF_EXCEPTION (None, castedThis) ;;
            ret {| transfer := transferList |}
        | None => ret options
        end
    | _ => ret options
    end ;;
  RETURN_IF_EXCEPTION (None, castedThis) ;;
  RELEASE_AND_RETURN
    (toJS_IDLUndefined castedThis (postMessage impl message options)).

Definition jsWorkerPrototypeFunction_postMessageOverloadDispatcher
    (castedThis : JSWorker) (callFrame : CallFrame)
  : Host HandleResult HandleResult :=
  let argsCount := Nat.min 2 (argumentCount callFrame) in
  (if (argsCount =? 1)%nat then
     RELEASE_AND_RETURN
       (jsWorkerPrototypeFunction_postMessage2Body castedThis callFrame)
   else ret tt) ;;
  (if (argsCount =? 2)%nat then
     let distinguishingArg := uncheckedArgument callFrame 1 in
     (if isUndefined distinguishingArg then
        RELEASE_AND_RETURN
          (jsWorkerPrototypeFunction_postMessage2Body castedThis callFrame)
      else ret tt) ;;
     (if isUndefinedOrNull distinguishingArg then
        RELEASE_AND_RETURN
          (jsWorkerPrototypeFunction_postMessage2Body castedThis callFrame)
      else ret tt) ;;
     success <- hasIteratorMethod distinguishingArg ;;
     RETURN_IF_EXCEPTION (None, castedThis) ;;
     (if success then
        RELEASE_AND_RETURN
          (jsWorkerPrototypeFunction_postMessage1Body castedThis callFrame)
      else ret tt) ;;
     (if isObject distinguishingArg then
        RELEASE_AND_RETURN
          (jsWorkerPrototypeFunction_postMessage2Body castedThis callFrame)
      else ret tt)
   else ret tt) ;;
  if (argsCount <? 1)%nat then
    throwVMError (None, castedThis) NotEnoughArgumentsError
  else throwVMTypeError (None, castedThis).

Definition jsWorkerPrototypeFunction_refBody (castedThis : JSWorker)
    (callFrame : CallFrame) : Host HandleResult HandleResult :=
  returnWith
    (Some jsUndefined, {| wrapped := setKeepAlive true (wrapped castedThis) |}).

Definition jsWorkerPrototypeFunction_unrefBody (castedThis : JSWorker)
    (callFrame : CallFrame) : Host HandleResult HandleResult :=
  returnWith
    (Some jsUndefined, {| wrapped := setKeepAlive false (wrapped castedThis) |}).

(** ** Reachability, lines 581-593

    [reason] tells whether the caller passed a place for the reason; the
    result is the answer and what was written there. *)
Definition isReachableFromOpaqueRoots (jsWorker : JSWorker) (reason : bool)
  : bool * option string :=
  let wrapped := wrapped jsWorker in
  if negb (isContextStopped wrapped) && hasPendingActivity wrapped then
    (true, if reason then Some "ActiveDOMObject with pending activity" else None)
  else (false, None).

(** The collector's use of the hook: a wrapper that was not marked from
    another object is reclaimed unless its owner answers that it is
    reachable from an opaque root. *)
Definition reclaimed (marked : bool) (jsWorker : JSWorker) : bool :=
  negb marked && negb (fst (isReachableFromOpaqueRoots jsWorker false)).

(** ** The operations on a handle

    Everything script can do with a wrapper through the prototype table of
    lines 312-322, and the state of the wrapper afterwards. *)
Inductive Operation : Type :=
| call_terminate (callFrame : CallFrame)
| call_postMessage (callFrame : CallFrame)
| call_ref (callFrame : CallFrame)
| call_unref (callFrame : CallFrame)
| get_threadId
| get_onmessage
| set_onmessage (value : JSValue)
| get_onmessageerror
| set_onmessageerror (value : JSValue)
| get_onerror
| set_onerror (value : JSValue).

Definition after (op : Operation) (jsWorker : JSWorker) : JSWorker :=
  match op with
  | call_terminate callFrame =>
      snd (fst (hostCall
        (jsWorkerPrototypeFunction_terminateBody jsWorker callFrame)))
  | call_postMessage callFrame =>
      snd (fst (hostCall
        (jsWorkerPrototypeFunction_postMessageOverloadDispatcher
           jsWorker callFrame)))
  | call_ref callFrame =>
      snd (fst (hostCall (jsWorkerPrototypeFunction_refBody jsWorker callFrame)))
  | call_unref callFrame =>
      snd (fst (hostCall
        (jsWorkerPrototypeFunction_unrefBody jsWorker callFrame)))
  | get_threadId | get_onmessage | get_onmessageerror | get_onerror => jsWorker
  | set_onmessage value => snd (setJSWorker_onmessageSetter jsWorker value)
  | set_onmessageerror value =>
      snd (setJSWorker_onmessageerrorSetter jsWorker value)
  | set_onerror value => snd (setJSWorker_onerrorSetter jsWorker value)
  end.

End JSWorker.

(** ** The prototype table, lines 312-322 *)

Inductive PropertyAttribute : Type :=
| DontEnum
| DontDelete
| ReadOnly
| Function
| CustomAccessor
| DOMAttribute.

(** What an entry holds: a getter and maybe a setter, or a native function
    and its length; each by the name of the function of this file. *)
Inductive HashTableValueKind : Type :=
| GetterSetterType (getter : string) (setter : option string)
| NativeFunctionType (function : string) (functionLength : nat).

Record HashTableValue : Type := mkHashTableValue {
  m_key : string;
  m_attributes : list PropertyAttribute;
  m_value : HashTableValueKind
}.

Definition JSWorkerPrototypeTableValues : list HashTableValue :=
  [ mkHashTableValue "constructor" [DontEnum]
      (GetterSetterType "jsWorkerConstructor" None);
    mkHashTableValue "onerror" [CustomAccessor; DOMAttribute]
      (GetterSetterType "jsWorker_onerror" (Some "setJSWorker_onerror"));
    mkHashTableValue "onmessage" [CustomAccessor; DOMAttribute]
      (GetterSetterType "jsWorker_onmessage" (Some "setJSWorker_onmessage"));
    mkHashTableValue "onmessageerror" [CustomAccessor; DOMAttribute]
      (GetterSetterType "jsWorker_onmessageerror"
                        (Some "setJSWorker_onmessageerror"));
    mkHashTableValue "postMessage" [Function]
      (NativeFunctionType "jsWorkerPrototypeFunction_postMessage" 1);
    mkHashTableValue "ref" [Function]
      (NativeFunctionType "jsWorkerPrototypeFunction_ref" 0);
    mkHashTableValue "terminate" [Function]
      (NativeFunctionType "jsWorkerPrototypeFunction_terminate" 0);
    mkHashTableValue "threadId"
      [CustomAccessor; DOMAttribute; ReadOnly; DontDelete]
      (GetterSetterType "jsWorker_threadIdGetter" None);
    mkHashTableValue "unref" [Function]
      (NativeFunctionType "jsWorkerPrototypeFunction_unref" 0) ].

Definition tableEntry (key : string) : option HashTableValue :=
  find (fun v => String.eqb (m_key v) key) JSWorkerPrototypeTableValues.

(** ** Vocabulary of the properties *)

(** The characters [toWTFString] gives, or the exception it throws. *)
Definition stringOf (v : JSValue) : string + JSException :=
  match v with
  | jsUndefined => inl "undefined"
  | jsNull => inl "null"
  | jsBoolean true => inl "true"
  | jsBoolean false => inl "false"
  | jsNumber n => inl (numberToString n)
  | jsString s => inl s
  | jsSymbol _ => inr (TypeError "Cannot convert a symbol to a string")
  | jsObject o =>
      match toStringOutcome o with
      | StringResult s => inl s
      | StringThrows e => inr e
      end
  end.

(** What probing a value for an iterator method comes to: it has one, it
    has none, or the probe throws because the [Symbol.iterator] property
    holds something that cannot be called. *)
Definition iteratorProbe (v : JSValue) : bool + JSException :=
  match v with
  | jsObject o =>
      let method := get o iteratorSymbol in
      if isUndefinedOrNull method then inl false
      else if isCallable method then inl true
      else inr (TypeError "Symbol.iterator property should be callable")
  | _ => inl false
  end.

(** The objects among some values, in order. *)
Definition objectsOf (values : list JSValue) : list JSObject :=
  flat_map (fun v => match v with jsObject o => [o] | _ => [] end) values.

(** The value of an option: the property of that name of the second
    argument, when the argument is an object. *)
Definition optionValue (argument1 : JSValue) (key : string) : option JSValue :=
  match argument1 with
  | jsObject optionsObject => getIfPropertyExists optionsObject (Identifier key)
  | _ => None
  end.

(** The elements of an array value. *)
Definition elementsOf (v : JSValue) : list JSValue :=
  match v with
  | jsObject a => elements a
  | _ => []
  end.

(** A string list captures some values: one isolated string for each
    value, the string the value converts to. *)
Definition capturesValues (values : list JSValue) (strings : list WTFString)
  : Prop :=
  Forall2 (fun e s => stringOf e = inl (characters s) /\ isolated s = true)
          values strings.

(** [k] names an own enumerable property of [o] that is named by a string:
    an index below the length, or a named enumerable property. *)
Definition ownEnumerableString (o : JSObject) (k : string) : Prop :=
  (exists i, i < List.length (elements o) /\ k = indexName i) \/
  (exists p, In p (properties o) /\ enumerable p = true /\
             propertyName p = Identifier k).

(** An environment mapping captures an object: every own enumerable
    property named by a string has an entry holding the string its value
    converts to; every entry comes from such a property; keys and values
    are isolated copies; no key is there twice. *)
Definition capturesEnvironment (envObject : JSObject) (env : HashMap) : Prop :=
  (forall k, ownEnumerableString envObject k ->
     exists v, HashMap_get env k = Some v /\
               stringOf (get envObject (Identifier k)) = inl (characters v)) /\
  (forall key value, In (key, value) env ->
     isolated key = true /\ isolated value = true /\
     ownEnumerableString envObject (characters key)) /\
  NoDup (map (fun kv => characters (fst kv)) env).

(** The entry of the environment mapping for a key and the characters of
    its value: two isolated strings. *)
Definition entry (ks : string * string) : WTFString * WTFString :=
  (mkString (fst ks) true, mkString (snd ks) true).

(** The object whose properties become the environment mapping, lines
    199-205: the [env] option when it is a cell that is an object, the
    [process.env] object of the creating global object when the option is
    missing or is not a cell. *)
Definition environmentSource (g : GlobalObject) (optionsObject : JSObject)
  : option JSObject :=
  match getIfPropertyExists optionsObject (Identifier "env") with
  | Some v => if isCell v then jsDynamicCast_JSObject v
              else m_processEnvObject g
  | None => m_processEnvObject g
  end.

Section Vocabulary.

Context `{Collaborators}.

(** What iterating a value comes to: the elements of an array in the fast
    mode; otherwise what its [Symbol.iterator] method yields, and a
    [TypeError] when it has none that can be called. *)
Definition iterationOf (v : JSValue) : Iteration :=
  match v with
  | jsObject o =>
      match getIterationMode v with
      | FastArray => {| yielded := elements o; thrown := None |}
      | Generic =>
          let method := get o iteratorSymbol in
          if isCallable method then iteratorProtocol method v
          else {| yielded := []; thrown := Some (TypeError "Type error") |}
      end
  | _ => {| yielded := []; thrown := Some (TypeError "Type error") |}
  end.

(** Iterating [v] yields [values] and ends without an exception. *)
Definition iteratesTo (v : JSValue) (values : list JSValue) : Prop :=
  iterationOf v = {| yielded := values; thrown := None |}.

(** What the constructor keeps of a string-list option: nothing unless
    the option is there and is a cell of type [ArrayType], and then the
    strings of the values that iterating it yields. *)
Definition capturedList (given : option JSValue)
    (result : option (list WTFString)) : Prop :=
  match given with
  | Some v =>
      if isArrayTyped v then
        exists values strings,
          result = Some strings /\ iteratesTo v values /\
          capturesValues values strings
      else result = None
  | None => result = None
  end.

(** The initial payload fails: the serializer fails, or it finds ports and
    disentangling them fails. *)
Definition payloadFails (workerData : JSValue) (transferList : list JSObject)
    (e : Exception) : Prop :=
  SerializedScriptValue_create workerData transferList = HasException e \/
  exists serialized ports,
    SerializedScriptValue_create workerData transferList
      = ReturnValue (serialized, ports) /\
    ports <> [] /\
    MessagePort_disentanglePorts ports = HasException e.

(** The outcome of a prototype function that throws [e]. *)
Definition throws (castedThis : JSWorker) (e : JSException)
  : HandleResult * ThrowScope :=
  ((None, castedThis), Some e).

(** The outcome of handing the message to the worker with a transfer
    list. *)
Definition posts (castedThis : JSWorker) (message : JSValue)
    (transferList : list JSObject) : HandleResult * ThrowScope :=
  hostCall (toJS_IDLUndefined castedThis
              (postMessage (wrapped castedThis) message
                           {| transfer := transferList |})).

End Vocabulary.

(** ** A concrete collaborator and concrete values

    Used to run the definitions.  The snapshot of a value is the value and
    its transfer list; a symbol cannot be cloned; an object of the
    transfer list with a number as its [port] property is a port of that
    number, and port 0 is detached already; a sequence is an array of
    objects; a thread gets the identifier after its context's and at most
    63 threads start; a function that holds elements is a generator that
    yields them, a function that holds none is the iterator method of
    plain arrays, and the untouched [Array.prototype] is an object that
    has the latter as its [Symbol.iterator] property. *)
Module Example.

Definition isEmpty (values : list JSValue) : bool :=
  match values with
  | [] => true
  | _ => false
  end.

Definition portsOf (transferList : list JSObject) : list Z :=
  flat_map (fun o => match get o (Identifier "port") with
                     | jsNumber n => [n]
                     | _ => []
                     end)
           transferList.

#[export] Instance collaborators : Collaborators := {|
  SerializedScriptValue := (JSValue * list JSObject)%type;
  MessagePort := Z;
  TransferredMessagePort := Z;
  SerializedScriptValue_create v transferList :=
    match v with
    | jsSymbol _ =>
        HasException (mkException DataCloneError "Cannot serialize a symbol")
    | _ => ReturnValue ((v, transferList), portsOf transferList)
    end;
  MessagePort_disentanglePorts ports :=
    if existsb (Z.eqb 0) ports then
      HasException (mkException InvalidStateError "Port is detached")
    else ReturnValue ports;
  convert_IDLSequence_IDLObject v :=
    match v with
    | jsObject o =>
        match jsDynamicCast_JSArray o with
        | Some a =>
            if forallb isObject (elements a) then inl (objectsOf (elements a))
            else inr (TypeError "Value is not an object")
        | None => inr (TypeError "Value is not a sequence")
        end
    | _ => inr (TypeError "Value is not a sequence")
    end;
  WebWorker_create context scriptUrl :=
    if String.eqb (characters scriptUrl) "" then
      HasException (mkException TypeErrorCode "Invalid URL")
    else ReturnValue (identifier context + 1)%Z;
  WebWorker_updatePtr id := (id <? 64)%Z;
  setSubclassStructureIfNeeded _ := None;
  isArrayPrototypeWithFastIteration arrayPrototype :=
    match get arrayPrototype iteratorSymbol with
    | jsObject f => isCallable (jsObject f) && isEmpty (elements f)
    | _ => false
    end;
  iteratorProtocol iteratorFunction iterable :=
    match iteratorFunction with
    | jsObject f =>
        match elements f with
        | [] => {| yielded := elementsOf iterable; thrown := None |}
        | values => {| yielded := values; thrown := None |}
        end
    | _ => {| yielded := []; thrown := Some (TypeError "Type error") |}
    end
|}.

Definition function : JSObject :=
  mkJSObject JSFunctionType [] [] None (StringResult "function () {}").

Definition ArrayPrototype : JSObject :=
  mkJSObject ObjectType [mkProperty iteratorSymbol false (jsObject function)]
             [] None (StringResult "").

(** [{ k1: v1, ... }] *)
Definition object (ps : list (string * JSValue)) : JSObject :=
  mkJSObject FinalObjectType
             (map (fun kv => mkProperty (Identifier (fst kv)) true (snd kv)) ps)
             [] None (StringResult "[object Object]").

(** [[ e1, ... ]] *)
Definition array (es : list JSValue) : JSObject :=
  mkJSObject ArrayType [] es (Some ArrayPrototype) (StringResult "").

(** A message port. *)
Definition port (n : Z) : JSObject :=
  mkJSObject ObjectType [mkProperty (Identifier "port") false (jsNumber n)]
             [] None (StringResult "[object MessagePort]").


(** [[ e1, ... ]] with its [Symbol.iterator] property set to [iterator]. *)
Definition arrayWithIterator (es : list JSValue) (iterator : JSValue)
  : JSObject :=
  mkJSObject ArrayType [mkProperty iteratorSymbol true iterator] es
             (Some ArrayPrototype) (StringResult "").

(** [{ [Symbol.iterator]: 5 }] *)
Definition brokenIterable : JSObject :=
  mkJSObject FinalObjectType [mkProperty iteratorSymbol true (jsNumber 5)]
             [] None (StringResult "[object Object]").

Definition processEnv : JSObject :=
  object [("HOME", jsString "/root"); ("SHLVL", jsNumber 1)].

Definition globalObject : GlobalObject :=
  {| m_processEnvObject := Some processEnv |}.

Definition constructor : JSWorkerDOMConstructor :=
  {| scriptExecutionContext := Some {| identifier := 1 |} |}.

Definition url : JSValue := jsString "worker.js".

Definition frame (args : list JSValue) : CallFrame := {| arguments := args |}.

(** The worker that [new Worker("worker.js")] gives. *)
Definition worker : JSWorker :=
  {| wrapped :=
       {| clientIdentifier := 2;
          options := set_bun_unref false WorkerOptions_default;
          keepAlive := true; terminateRequested := false;
          isContextStopped := false; hasPendingActivity := true;
          onmessage := None; onmessageerror := None; onerror := None;
          outbox := [] |} |}.

(** A constructor whose context is so late that the thread of its worker
    does not start. *)
Definition lateConstructor : JSWorkerDOMConstructor :=
  {| scriptExecutionContext := Some {| identifier := 63 |} |}.

(** [{ ref: false }] *)
Definition unreffedOptions : JSValue :=
  jsObject (object [("ref", jsBoolean false)]).


(** [{ workerData: 1, data: 2, transferList: [port, 7] }] *)
Definition payloadOptions : JSObject :=
  object [("workerData", jsNumber 1); ("data", jsNumber 2);
          ("transferList", jsObject (array [jsObject (port 2); jsNumber 7]))].

(** [{ workerData: Symbol() }] *)
Definition symbolOptions : JSObject :=
  object [("workerData", jsSymbol "")].



End Example.

(** * Properties *)

(** ** Vocabulary of the further properties *)

Section Origins.

Context `{Collaborators}.

(** What makes reading the options object fail: the payload that fails,
    a property of the environment object that does not convert to a
    string, a value that iterating [argv] or [execArgv] yields and that
    does not, an iteration of one of them that throws. *)
Inductive optionsError (g : GlobalObject) (o : JSObject) : JSException -> Prop :=
| error_payload (payload : JSValue) (x : Exception) :
    construct_workerDataValue o = Some payload ->
    payloadFails payload (construct_transferList o) x ->
    optionsError g o (PropagatedException x)
| error_env (envObject : JSObject) (k : string) (e : JSException) :
    environmentSource g o = Some envObject ->
    ownEnumerableString envObject k ->
    stringOf (get envObject (Identifier k)) = inr e ->
    optionsError g o e
| error_argv (v element : JSValue) (e : JSException) :
    getIfPropertyExists o (Identifier "argv") = Some v ->
    isArrayTyped v = true ->
    In element (yielded (iterationOf v)) ->
    stringOf element = inr e ->
    optionsError g o e
| error_argv_iteration (v : JSValue) (e : JSException) :
    getIfPropertyExists o (Identifier "argv") = Some v ->
    isArrayTyped v = true ->
    thrown (iterationOf v) = Some e ->
    optionsError g o e
| error_execArgv (v element : JSValue) (e : JSException) :
    getIfPropertyExists o (Identifier "execArgv") = Some v ->
    isArrayTyped v = true ->
    In element (yielded (iterationOf v)) ->
    stringOf element = inr e ->
    optionsError g o e
| error_execArgv_iteration (v : JSValue) (e : JSException) :
    getIfPropertyExists o (Identifier "execArgv") = Some v ->
    isArrayTyped v = true ->
    thrown (iterationOf v) = Some e ->
    optionsError g o e.


(** The wrapper after a sequence of operations, the first of the list
    first. *)
Definition afterAll (ops : list Operation) (jsWorker : JSWorker) : JSWorker :=
  fold_left (fun w op => after op w) ops jsWorker.

(** What the last [ref] or [unref] of a sequence asks for, and [initial]
    when the sequence has neither. *)
Definition lastKeepAlive (ops : list Operation) (initial : bool) : bool :=
  fold_left
    (fun b op =>
       match op with
       | call_ref _ => true
       | call_unref _ => false
       | _ => b
       end)
    ops initial.

End Origins.

Ltac splits := repeat match goal with |- _ /\ _ => split end.

Section Properties.

Context `{Collaborators}.

(** ** The throw scope *)

Lemma hostCall_RELEASE_AND_RETURN {R A} (f : Host R R) (k : A -> Host R R) :
  hostCall (bind (RELEASE_AND_RETURN f) k) = hostCall f.
Proof.
  unfold hostCall, bind, RELEASE_AND_RETURN.
  destruct (f None) as [[r | r] s]; reflexivity.
Qed.

Lemma hostCall_RELEASE_AND_RETURN_last {R} (f : Host R R) :
  hostCall (RELEASE_AND_RETURN f) = hostCall f.
Proof.
  unfold hostCall, RELEASE_AND_RETURN.
  destruct (f None) as [[r | r] s]; reflexivity.
Qed.

Lemma toWTFString_stringOf {R} (v : JSValue) (s : ThrowScope) :
  @toWTFString R v s =
  match stringOf v with
  | inl str => (Continue (mkString str false), s)
  | inr e => (Continue emptyString, Some e)
  end.
Proof.
  destruct v as [| | [|] | n | str | d | o]; try reflexivity.
  simpl. destruct (toStringOutcome o); reflexivity.
Qed.

Lemma hasIteratorMethod_iteratorProbe {R} (v : JSValue) :
  @hasIteratorMethod R v None =
  match iteratorProbe v with
  | inl b => (Continue b, None)
  | inr e => (Continue false, Some e)
  end.
Proof.
  destruct v; try reflexivity.
  unfold hasIteratorMethod, iteratorProbe, getMethod, bind, exception.
  destruct (get o iteratorSymbol) as [| | b | n | str | d | m]; try reflexivity.
  simpl. destruct (JSType_eqb (type m) JSFunctionType); reflexivity.
Qed.

(** ** The [threadId] getter *)

(** C7.  The [threadId] getter gives the client identifier minus one on a
    worker wrapper, and [undefined] on any other receiver; it has no way
    to throw.  The table entry of [threadId] is read-only and has no
    setter. *)
Theorem threadId_getter (thisValue : ThisValue) :
  jsWorker_threadIdGetter thisValue =
    match thisValue with
    | thisWorker handle => jsNumber (clientIdentifier (wrapped handle) - 1)
    | thisOther _ => jsUndefined
    end /\
  tableEntry "threadId" =
    Some (mkHashTableValue "threadId"
            [CustomAccessor; DOMAttribute; ReadOnly; DontDelete]
            (GetterSetterType "jsWorker_threadIdGetter" None)).
Proof. split; [ destruct thisValue; reflexivity | reflexivity ]. Qed.

(** ** Reachability *)

(** C4.  The wrapper is reported reachable exactly when its context is not
    stopped and the worker has pending activity; while that holds the
    collector does not reclaim the wrapper, marked or not. *)
Theorem reachable_iff_pending_activity (jsWorker : JSWorker) (reason marked : bool) :
  (fst (isReachableFromOpaqueRoots jsWorker reason) = true <->
   isContextStopped (wrapped jsWorker) = false /\
   hasPendingActivity (wrapped jsWorker) = true) /\
  (isContextStopped (wrapped jsWorker) = false ->
   hasPendingActivity (wrapped jsWorker) = true ->
   reclaimed marked jsWorker = false).
Proof.
  unfold reclaimed, isReachableFromOpaqueRoots.
  destruct (isContextStopped (wrapped jsWorker)),
           (hasPendingActivity (wrapped jsWorker)); simpl;
    (split; [ split | ]); intros;
    repeat match goal with
           | Hc : _ /\ _ |- _ => destruct Hc
           end;
    try discriminate; try (split; reflexivity); try reflexivity.
  all: destruct marked; reflexivity.
Qed.

(** ** [postMessage] *)

Lemma postMessage1Body_outcome (castedThis : JSWorker) (callFrame : CallFrame) :
  hostCall (jsWorkerPrototypeFunction_postMessage1Body castedThis callFrame) =
  match convert_IDLSequence_IDLObject (uncheckedArgument callFrame 1) with
  | inl transferList =>
      posts castedThis (uncheckedArgument callFrame 0) transferList
  | inr e => throws castedThis e
  end.
Proof.
  unfold jsWorkerPrototypeFunction_postMessage1Body, posts, throws,
    convert_sequence, postMessage_transfer, hostCall, bind, RETURN_IF_EXCEPTION,
    RELEASE_AND_RETURN, ret, throwException, convert_IDLAny.
  destruct (convert_IDLSequence_IDLObject (uncheckedArgument callFrame 1));
    [ | reflexivity ].
  destruct (toJS_IDLUndefined _ _ None) as [[r | r] s]; reflexivity.
Qed.

Lemma postMessage2Body_outcome (castedThis : JSWorker) (callFrame : CallFrame) :
  hostCall (jsWorkerPrototypeFunction_postMessage2Body castedThis callFrame) =
  match optionValue (argument callFrame 1) "transfer" with
  | Some transferListValue =>
      match convert_IDLSequence_IDLObject transferListValue with
      | inl transferList =>
          posts castedThis (uncheckedArgument callFrame 0) transferList
      | inr e => throws castedThis e
      end
  | None => posts castedThis (uncheckedArgument callFrame 0) []
  end.
Proof.
  unfold jsWorkerPrototypeFunction_postMessage2Body, posts, throws, optionValue,
    convert_sequence, hostCall, bind, RETURN_IF_EXCEPTION,
    RELEASE_AND_RETURN, ret, throwException, convert_IDLAny.
  destruct (argument callFrame 1) as [| | b | n | str | d | o];
    try (destruct (toJS_IDLUndefined _ _ None) as [[r | r] s]; reflexivity).
  destruct (getIfPropertyExists o (Identifier "transfer")) as [t | ];
    [ destruct (convert_IDLSequence_IDLObject t); [ | reflexivity ] | ];
    destruct (toJS_IDLUndefined _ _ None) as [[r | r] s]; reflexivity.
Qed.

(** The overload chosen by the dispatcher, by the shape of the call. *)
Lemma postMessageOverloadDispatcher_outcome (castedThis : JSWorker)
    (callFrame : CallFrame) :
  hostCall (jsWorkerPrototypeFunction_postMessageOverloadDispatcher
              castedThis callFrame) =
  match arguments callFrame with
  | [] => throws castedThis NotEnoughArgumentsError
  | [_] =>
      hostCall (jsWorkerPrototypeFunction_postMessage2Body castedThis callFrame)
  | _ :: distinguishingArg :: _ =>
      if isUndefinedOrNull distinguishingArg then
        hostCall (jsWorkerPrototypeFunction_postMessage2Body castedThis callFrame)
      else
        match iteratorProbe distinguishingArg with
        | inr e => throws castedThis e
        | inl true =>
            hostCall
              (jsWorkerPrototypeFunction_postMessage1Body castedThis callFrame)
        | inl false =>
            if isObject distinguishingArg then
              hostCall
                (jsWorkerPrototypeFunction_postMessage2Body castedThis callFrame)
            else throws castedThis (TypeError "Type error")
        end
  end.
Proof.
  unfold jsWorkerPrototypeFunction_postMessageOverloadDispatcher,
    argumentCount, uncheckedArgument.
  destruct (arguments callFrame) as [| message [| distinguishingArg rest]] eqn:E.
  - reflexivity.
  - cbn [List.length Nat.min Nat.eqb nth].
    apply hostCall_RELEASE_AND_RETURN.
  - replace (Nat.min 2 (List.length (message :: distinguishingArg :: rest)))
      with 2 by (simpl; destruct (List.length rest); reflexivity).
    cbn [Nat.eqb Nat.ltb Nat.leb nth].
    destruct (isUndefinedOrNull distinguishingArg) eqn:EU.
    + destruct distinguishingArg; try discriminate; simpl.
      * unfold hostCall, bind, ret, RELEASE_AND_RETURN.
        destruct (jsWorkerPrototypeFunction_postMessage2Body _ _ None)
          as [[r | r] s]; reflexivity.
      * unfold hostCall, bind, ret, RELEASE_AND_RETURN.
        destruct (jsWorkerPrototypeFunction_postMessage2Body _ _ None)
          as [[r | r] s]; reflexivity.
    + assert (EU' : isUndefined distinguishingArg = false)
        by (destruct distinguishingArg; try reflexivity; discriminate).
      rewrite EU'.
      unfold hostCall, bind, ret.
      rewrite hasIteratorMethod_iteratorProbe.
      destruct (iteratorProbe distinguishingArg) as [[|] | e]; simpl.
      * unfold RELEASE_AND_RETURN.
        destruct (jsWorkerPrototypeFunction_postMessage1Body _ _ None)
          as [[r | r] s]; reflexivity.
      * destruct (isObject distinguishingArg); simpl; [ | reflexivity ].
        unfold RELEASE_AND_RETURN.
        destruct (jsWorkerPrototypeFunction_postMessage2Body _ _ None)
          as [[r | r] s]; reflexivity.
      * reflexivity.
Qed.

(** C1, as amended.  The dispatcher resolves the overload by the shape of
    the call: no argument is a not-enough-arguments error; one argument is
    the options form, with an empty transfer list; with two arguments or
    more, an undefined or null second argument is the options form,
    otherwise the second argument is probed for an iterator method and,
    when the probe throws, its exception is raised, when it finds a method
    the transfer-list form is used, when it finds none an object is the
    options form and anything else a [TypeError].  The options form reads
    the [transfer] property when the second argument is an object that has
    one; the transfer-list form converts the second argument itself. *)
Theorem postMessage_overload_resolution (castedThis : JSWorker)
    (callFrame : CallFrame) :
  let dispatched :=
    hostCall (jsWorkerPrototypeFunction_postMessageOverloadDispatcher
                castedThis callFrame) in
  let optionsForm :=
    hostCall (jsWorkerPrototypeFunction_postMessage2Body castedThis callFrame) in
  let transferListForm :=
    hostCall (jsWorkerPrototypeFunction_postMessage1Body castedThis callFrame) in
  dispatched =
    match arguments callFrame with
    | [] => throws castedThis NotEnoughArgumentsError
    | [message] => posts castedThis message []
    | _ :: distinguishingArg :: _ =>
        if isUndefinedOrNull distinguishingArg then optionsForm
        else
          match iteratorProbe distinguishingArg with
          | inr e => throws castedThis e
          | inl true => transferListForm
          | inl false =>
              if isObject distinguishingArg then optionsForm
              else throws castedThis (TypeError "Type error")
          end
    end /\
  optionsForm =
    match optionValue (argument callFrame 1) "transfer" with
    | Some transferListValue =>
        match convert_IDLSequence_IDLObject transferListValue with
        | inl transferList =>
            posts castedThis (uncheckedArgument callFrame 0) transferList
        | inr e => throws castedThis e
        end
    | None => posts castedThis (uncheckedArgument callFrame 0) []
    end /\
  transferListForm =
    match convert_IDLSequence_IDLObject (uncheckedArgument callFrame 1) with
    | inl transferList =>
        posts castedThis (uncheckedArgument callFrame 0) transferList
    | inr e => throws castedThis e
    end.
Proof.
  cbv zeta. split; [ | split ].
  - rewrite postMessageOverloadDispatcher_outcome.
    destruct (arguments callFrame) as [| message [| d rest]] eqn:E;
      try reflexivity.
    rewrite postMessage2Body_outcome.
    unfold argument, uncheckedArgument. rewrite E. reflexivity.
  - apply postMessage2Body_outcome.
  - apply postMessage1Body_outcome.
Qed.

(** ** The options read by the constructor *)

Lemma construct_name_outcome (o : JSObject) (opts : WorkerOptions) :
  exists opts',
    construct_name o opts None = (Continue opts', None) /\
    (opts' = opts \/ exists s, opts' = set_name s opts).
Proof.
  unfold construct_name.
  destruct (getIfPropertyExists o (Identifier "name")) as [[| | b | n | str | d | m] | ];
    cbn; unfold ret; eauto.
Qed.

Lemma construct_smol_outcome (o : JSObject) (opts : WorkerOptions) :
  exists opts',
    construct_smol o opts None = (Continue opts', None) /\
    (opts' = opts \/ exists b, opts' = set_bun_mini b opts).
Proof.
  unfold construct_smol.
  destruct (getIfPropertyExists o (Identifier "smol")); cbn; unfold ret; eauto.
Qed.

Lemma construct_ref_outcome (o : JSObject) (opts : WorkerOptions) :
  construct_ref o opts None =
  (Continue
     match getIfPropertyExists o (Identifier "ref") with
     | Some ref => set_bun_unref (negb (toBoolean ref)) opts
     | None => opts
     end, None).
Proof.
  unfold construct_ref.
  destruct (getIfPropertyExists o (Identifier "ref")); reflexivity.
Qed.

(** What lines 175-193 come to on an empty exception slot. *)
Lemma construct_serialize_outcome (workerData : JSValue)
    (transferList : list JSObject) (opts : WorkerOptions) :
  construct_serialize workerData transferList opts None =
  match SerializedScriptValue_create workerData transferList with
  | HasException e => (Return None, Some (PropagatedException e))
  | ReturnValue (serialized, []) =>
      (Continue (set_bun_data serialized [] opts), None)
  | ReturnValue (serialized, (_ :: _) as ports) =>
      match MessagePort_disentanglePorts ports with
      | HasException e => (Return None, Some (PropagatedException e))
      | ReturnValue transferredPorts =>
          (Continue (set_bun_data serialized transferredPorts opts), None)
      end
  end.
Proof.
  unfold construct_serialize.
  destruct (SerializedScriptValue_create workerData transferList)
    as [[serialized [| port ports]] | e]; try reflexivity.
  unfold bind.
  destruct (MessagePort_disentanglePorts (port :: ports)); reflexivity.
Qed.


Lemma construct_serialize_Continue (workerData : JSValue)
    (transferList : list JSObject) (opts opts' : WorkerOptions) (s : ThrowScope) :
  construct_serialize workerData transferList opts None = (Continue opts', s) ->
  s = None /\
  exists serialized ports transferredPorts,
    SerializedScriptValue_create workerData transferList
      = ReturnValue (serialized, ports) /\
    opts' = set_bun_data serialized transferredPorts opts.
Proof.
  rewrite construct_serialize_outcome.
  destruct (SerializedScriptValue_create workerData transferList)
    as [[serialized [| port ports]] | e]; try discriminate.
  - intros E. inversion E. eauto 6.
  - destruct (MessagePort_disentanglePorts (port :: ports)); try discriminate.
    intros E. inversion E. eauto 6.
Qed.

(** *** The environment *)

Lemma addPropertyNames_In (ps : list Property) :
  forall (keys : list string) (k : string),
    In k (addPropertyNames ps keys) <->
    In k keys \/
    exists p, In p ps /\ enumerable p = true /\ propertyName p = Identifier k.
Proof.
  induction ps as [| [[k' | d] [|] v] rest IH]; intros keys k; simpl.
  - split; [ auto | intros [? | (p & [] & _)]; assumption ].
  - rewrite IH. split.
    + intros [Hk | (p & Hp & He & Hn)].
      * destruct (existsb (String.eqb k') keys) eqn:E; [ auto | ].
        apply in_app_or in Hk. destruct Hk as [Hk | [Hk | []]]; [ auto | ].
        subst. right. exists (mkProperty (Identifier k) true v). auto.
      * right. exists p. auto.
    + intros [Hk | (p & [Hp | Hp] & He & Hn)].
      * left. destruct (existsb (String.eqb k') keys); [ assumption | ].
        apply in_or_app. auto.
      * subst p. simpl in Hn. inversion Hn; subst k'. left.
        destruct (existsb (String.eqb k) keys) eqn:E.
        -- apply existsb_exists in E. destruct E as (x & Hx & Ex).
           apply String.eqb_eq in Ex. subst. assumption.
        -- apply in_or_app. simpl. auto.
      * right. exists p. auto.
  - rewrite IH. split.
    + intros [Hk | (p & Hp & He & Hn)]; [ auto | right; exists p; auto ].
    + intros [Hk | (p & [Hp | Hp] & He & Hn)];
        [ auto | subst p; discriminate | right; exists p; auto ].
  - rewrite IH. split.
    + intros [Hk | (p & Hp & He & Hn)]; [ auto | right; exists p; auto ].
    + intros [Hk | (p & [Hp | Hp] & He & Hn)];
        [ auto | subst p; discriminate | right; exists p; auto ].
  - rewrite IH. split.
    + intros [Hk | (p & Hp & He & Hn)]; [ auto | right; exists p; auto ].
    + intros [Hk | (p & [Hp | Hp] & He & Hn)];
        [ auto | subst p; discriminate | right; exists p; auto ].
Qed.

Lemma addPropertyNames_NoDup (ps : list Property) :
  forall keys : list string, NoDup keys -> NoDup (addPropertyNames ps keys).
Proof.
  induction ps as [| [[k' | d] [|] v] rest IH]; intros keys Hkeys; simpl; auto.
  apply IH. destruct (existsb (String.eqb k') keys) eqn:E; [ assumption | ].
  apply NoDup_app; [ assumption | repeat constructor; intros [] | ].
  intros a Ha [Hk | []]. subst a.
  assert (existsb (String.eqb k') keys = true); [ | congruence ].
  apply existsb_exists. exists k'. split; [ assumption | apply String.eqb_refl ].
Qed.

Lemma indexName_inj (i j : nat) : indexName i = indexName j -> i = j.
Proof.
  unfold indexName. intros E.
  assert (Hnonnil : forall n, Nat.to_uint n <> Decimal.Nil).
  { intros n. rewrite <- (DecimalNat.Unsigned.of_to n) at 1.
    rewrite DecimalNat.Unsigned.to_of. apply DecimalFacts.unorm_nonnil. }
  pose proof (NilZero.usu _ (Hnonnil i)) as Hi.
  pose proof (NilZero.usu _ (Hnonnil j)) as Hj.
  rewrite E, Hj in Hi. inversion Hi as [E'].
  symmetry. apply DecimalNat.Unsigned.to_uint_inj. exact E'.
Qed.

Lemma getOwnPropertyNames_In (o : JSObject) (k : string) :
  In k (getOwnPropertyNames o) <-> ownEnumerableString o k.
Proof.
  unfold getOwnPropertyNames, ownEnumerableString.
  rewrite addPropertyNames_In, in_map_iff.
  split; (intros [Hindex | Hnamed]; [ left | right; exact Hnamed ]).
  - destruct Hindex as (i & <- & Hi). apply in_seq in Hi.
    exists i. split; [ lia | reflexivity ].
  - destruct Hindex as (i & Hi & ->).
    exists i. split; [ reflexivity | apply in_seq; lia ].
Qed.

Lemma getOwnPropertyNames_NoDup (o : JSObject) : NoDup (getOwnPropertyNames o).
Proof.
  apply addPropertyNames_NoDup.
  apply NoDup_map_NoDup_ForallPairs; [ | apply seq_NoDup ].
  intros i j _ _. apply indexName_inj.
Qed.

Lemma HashMap_contains_app (m m' : HashMap) (k : string) :
  HashMap_contains (m ++ m') k = HashMap_contains m k || HashMap_contains m' k.
Proof. apply existsb_app. Qed.

Lemma construct_envLoop_outcome (envObject : JSObject) (keys : list string) :
  forall env : HashMap,
    NoDup keys ->
    (forall k, In k keys -> HashMap_contains env k = false) ->
    (exists strs,
       Forall2 (fun k str => stringOf (get envObject (Identifier k)) = inl str)
               keys strs /\
       construct_envLoop envObject keys env None
         = (Continue (env ++ map entry (combine keys strs)), None)) \/
    (exists e, construct_envLoop envObject keys env None = (Return None, Some e)).
Proof.
  induction keys as [| key rest IH]; intros env Hnodup Hfresh.
  - left. exists []. split; [ constructor | ]. simpl. rewrite app_nil_r. reflexivity.
  - simpl. unfold bind, RETURN_IF_EXCEPTION. rewrite toWTFString_stringOf.
    destruct (stringOf (get envObject (Identifier key))) as [str | e] eqn:E.
    + unfold HashMap_add. simpl characters.
      rewrite (Hfresh key) by (left; reflexivity).
      inversion Hnodup as [| ? ? Hnotin Hnodup']; subst.
      destruct (IH (env ++ [(isolatedCopy (mkString key false),
                             isolatedCopy (mkString str false))]) Hnodup')
        as [(strs & HF & Hloop) | (e & Hloop)].
      * intros k Hk. rewrite HashMap_contains_app, (Hfresh k) by (right; assumption).
        simpl. rewrite orb_false_r.
        apply String.eqb_neq. intros ->. contradiction.
      * left. exists (str :: strs). split; [ constructor; assumption | ].
        rewrite Hloop. simpl. rewrite <- app_assoc. reflexivity.
      * right. exists e. assumption.
    + right. exists e. reflexivity.
Qed.

Lemma HashMap_get_entries (P : string -> string -> Prop)
    (keys strs : list string) (k : string) :
  Forall2 P keys strs -> In k keys ->
  exists str, HashMap_get (map entry (combine keys strs)) k
                = Some (mkString str true) /\ P k str.
Proof.
  induction 1 as [| k0 str0 keys strs HP HF IH]; intros Hin; [ destruct Hin | ].
  unfold HashMap_get. simpl.
  destruct (String.eqb k0 k) eqn:E.
  - apply String.eqb_eq in E. subst. exists str0. auto.
  - destruct Hin as [-> | Hin]; [ rewrite String.eqb_refl in E; discriminate | ].
    apply IH. assumption.
Qed.

Lemma combine_fst (keys strs : list string) :
  List.length keys = List.length strs ->
  map (fun kv : WTFString * WTFString => characters (fst kv))
      (map entry (combine keys strs)) = keys.
Proof.
  revert strs. induction keys as [| k keys IH]; intros [| s strs] Hlen;
    try discriminate; [ reflexivity | ].
  simpl. f_equal. apply IH. simpl in Hlen. congruence.
Qed.

Lemma entries_capture (envObject : JSObject) (strs : list string) :
  Forall2 (fun k str => stringOf (get envObject (Identifier k)) = inl str)
          (getOwnPropertyNames envObject) strs ->
  capturesEnvironment envObject
    (map entry (combine (getOwnPropertyNames envObject) strs)).
Proof.
  intros HF. split; [ | split ].
  - intros k Hk.
    destruct (HashMap_get_entries k HF) as (str & Hget & Hstr).
    + apply getOwnPropertyNames_In. exact Hk.
    + exists (mkString str true). auto.
  - intros key value Hin.
    apply in_map_iff in Hin. destruct Hin as ([k str] & E & Hin).
    inversion E. subst. simpl. split; [ reflexivity | split; [ reflexivity | ] ].
    apply in_combine_l in Hin. apply getOwnPropertyNames_In. assumption.
  - rewrite combine_fst by (eapply Forall2_length; eassumption).
    apply getOwnPropertyNames_NoDup.
Qed.

Lemma construct_env_outcome (g : GlobalObject) (o : JSObject)
    (opts : WorkerOptions) :
  match environmentSource g o with
  | None => construct_env g o opts None = (Continue opts, None)
  | Some envObject =>
      (exists env,
         capturesEnvironment envObject env /\
         construct_env g o opts None = (Continue (set_bun_env env opts), None)) \/
      (exists e, construct_env g o opts None = (Return None, Some e))
  end.
Proof.
  unfold construct_env, environmentSource. cbv zeta.
  destruct (match getIfPropertyExists o (Identifier "env") with
            | Some v => if isCell v then jsDynamicCast_JSObject v
                        else m_processEnvObject g
            | None => m_processEnvObject g
            end) as [envObject | ]; [ | reflexivity ].
  unfold bind, RETURN_IF_EXCEPTION.
  destruct (construct_envLoop_outcome envObject (keys := getOwnPropertyNames envObject) []
              (getOwnPropertyNames_NoDup envObject) (fun _ _ => eq_refl))
    as [(strs & HF & Hloop) | (e & Hloop)]; rewrite Hloop.
  - left. eexists. split; [ apply entries_capture; eassumption | reflexivity ].
  - right. exists e. reflexivity.
Qed.

Lemma construct_env_Continue (g : GlobalObject) (o : JSObject)
    (opts opts' : WorkerOptions) (s : ThrowScope) :
  construct_env g o opts None = (Continue opts', s) ->
  s = None /\
  match environmentSource g o with
  | None => opts' = opts
  | Some envObject =>
      exists env, capturesEnvironment envObject env /\ opts' = set_bun_env env opts
  end.
Proof.
  intros E. pose proof (construct_env_outcome g o opts) as Hout.
  destruct (environmentSource g o) as [envObject | ].
  - destruct Hout as [(env & Hcap & Hout) | (e & Hout)];
      rewrite Hout in E; [ | discriminate ].
    inversion E. eauto.
  - rewrite Hout in E. inversion E. auto.
Qed.

Lemma construct_workerData_Continue (o : JSObject) (opts opts' : WorkerOptions)
    (s : ThrowScope) :
  construct_workerData o opts None = (Continue opts', s) ->
  s = None /\
  match construct_workerDataValue o with
  | None => opts' = opts
  | Some workerData =>
      exists serialized ports transferredPorts,
        SerializedScriptValue_create workerData (construct_transferList o)
          = ReturnValue (serialized, ports) /\
        opts' = set_bun_data serialized transferredPorts opts
  end.
Proof.
  unfold construct_workerData.
  destruct (construct_workerDataValue o) as [workerData | ].
  - apply construct_serialize_Continue.
  - intros E. inversion E. auto.
Qed.

(** *** The string lists *)

Lemma forEachInList_appendString (values : list JSValue) :
  forall (acc : list WTFString) (s : ThrowScope),
  exists res s',
    forEachInList values construct_appendString acc s = (Continue res, s') /\
    (s <> None -> s' <> None) /\
    (s' = None ->
     exists strings,
       Forall2 (fun e str => stringOf e = inl (characters str) /\ isolated str = true)
               values strings /\
       res = acc ++ strings).
Proof.
  induction values as [| nextValue rest IH]; intros acc s.
  - exists acc, s. split; [ reflexivity | ]. split; [ auto | ].
    intros _. exists []. split; [ constructor | ]. symmetry. apply app_nil_r.
  - simpl. unfold construct_appendString, bind, exception.
    rewrite toWTFString_stringOf.
    destruct (stringOf nextValue) as [str | e] eqn:E.
    + destruct s as [pending | ].
      * exists acc, (Some pending). unfold ret.
        split; [ reflexivity | ]. split; [ auto | discriminate ].
      * unfold ret.
        destruct (IH (acc ++ [isolatedCopy (mkString str false)]) None)
          as (res & s' & Hloop & Hmono & Hres).
        exists res, s'. split; [ assumption | ]. split; [ congruence | ].
        intros Hs'. destruct (Hres Hs') as (strings & HF & ->).
        exists (isolatedCopy (mkString str false) :: strings).
        split; [ constructor; auto | ].
        rewrite <- app_assoc. reflexivity.
    + exists acc, (Some e). unfold ret.
      split; [ reflexivity | ]. split; [ discriminate | discriminate ].
Qed.

Lemma forEachInIterable_appendString (v : JSValue) :
  exists res s',
    forEachInIterable v construct_appendString [] None = (Continue res, s') /\
    (s' = None ->
     exists values, iteratesTo v values /\ capturesValues values res).
Proof.
  destruct v as [| | b | n | str | d | a];
    try (exists [], (Some (TypeError "Type error"));
         split; [ reflexivity | discriminate ]).
  unfold forEachInIterable, iteratesTo, iterationOf.
  destruct (getIterationMode (jsObject a)) eqn:M.
  - destruct (forEachInList_appendString (elements a) [] None)
      as (res & s' & Hloop & _ & Hres).
    exists res, s'. split; [ exact Hloop | ].
    intros Hs'. destruct (Hres Hs') as (strings & HF & ->).
    exists (elements a). split; [ reflexivity | exact HF ].
  - unfold iteratorForIterable, bind, exception.
    destruct (isCallable (get a iteratorSymbol)) eqn:C.
    + destruct (iteratorProtocol (get a iteratorSymbol) (jsObject a))
        as [values x] eqn:P.
      unfold ret. cbn [negb yielded thrown].
      destruct (forEachInList_appendString values [] None)
        as (res & s' & Hloop & _ & Hres).
      rewrite Hloop.
      destruct s' as [e | ].
      * exists res, (Some e). split; [ reflexivity | discriminate ].
      * destruct x as [x | ].
        -- exists res, (Some x). split; [ reflexivity | discriminate ].
        -- exists res, None. split; [ reflexivity | ]. intros _.
           destruct (Hres eq_refl) as (strings & HF & ->).
           exists values. split; [ reflexivity | exact HF ].
    + exists [], (Some (TypeError "Type error")).
      split; [ reflexivity | discriminate ].
Qed.

Lemma construct_argv_outcome (o : JSObject) (opts : WorkerOptions) :
  exists opts' s',
    construct_argv o opts None = (Continue opts', s') /\
    (s' = None ->
     match getIfPropertyExists o (Identifier "argv") with
     | Some v =>
         if isArrayTyped v then
           exists values strings,
             opts' = set_bun_argv strings opts /\ iteratesTo v values /\
             capturesValues values strings
         else opts' = opts
     | None => opts' = opts
     end).
Proof.
  unfold construct_argv, bind, RETURN_IF_EXCEPTION.
  destruct (getIfPropertyExists o (Identifier "argv")) as [v | ];
    [ | exists opts, None; auto ].
  destruct (isArrayTyped v) eqn:E; [ | exists opts, None; auto ].
  destruct (forEachInIterable_appendString v) as (res & s' & Hloop & Hres).
  rewrite Hloop. exists (set_bun_argv res opts), s'.
  split; [ reflexivity | ]. intros Hs'.
  destruct (Hres Hs') as (values & Hit & Hcap). exists values, res. auto.
Qed.

Lemma construct_execArgv_outcome (o : JSObject) (opts : WorkerOptions) :
  exists opts' s',
    construct_execArgv o opts None = (Continue opts', s') /\
    (s' = None ->
     match getIfPropertyExists o (Identifier "execArgv") with
     | Some v =>
         if isArrayTyped v then
           exists values strings,
             opts' = set_bun_execArgv strings opts /\ iteratesTo v values /\
             capturesValues values strings
         else opts' = opts
     | None => opts' = opts
     end).
Proof.
  unfold construct_execArgv, bind, RETURN_IF_EXCEPTION.
  destruct (getIfPropertyExists o (Identifier "execArgv")) as [v | ];
    [ | exists opts, None; auto ].
  destruct (isArrayTyped v) eqn:E; [ | exists opts, None; auto ].
  destruct (forEachInIterable_appendString v) as (res & s' & Hloop & Hres).
  rewrite Hloop. exists (set_bun_execArgv res opts), s'.
  split; [ reflexivity | ]. intros Hs'.
  destruct (Hres Hs') as (values & Hit & Hcap). exists values, res. auto.
Qed.

Lemma construct_execArgv_pending (o : JSObject) (opts : WorkerOptions)
    (e : JSException) :
  construct_execArgv o opts (Some e) = (Return None, Some e).
Proof. reflexivity. Qed.

(** *** All the options *)

Lemma construct_options_fields (g : GlobalObject) (o : JSObject)
    (options : WorkerOptions) :
  construct_options g (jsObject o) None = (Continue options, None) ->
  bun_unref options =
    match getIfPropertyExists o (Identifier "ref") with
    | Some ref => negb (toBoolean ref)
    | None => false
    end /\
  match construct_workerDataValue o with
  | None => bun_data options = None
  | Some workerData =>
      exists serialized ports,
        SerializedScriptValue_create workerData (construct_transferList o)
          = ReturnValue (serialized, ports) /\
        bun_data options = Some serialized
  end /\
  match environmentSource g o with
  | None => bun_env options = None
  | Some envObject =>
      exists env, bun_env options = Some env /\ capturesEnvironment envObject env
  end /\
  capturedList (getIfPropertyExists o (Identifier "argv")) (bun_argv options) /\
  capturedList (getIfPropertyExists o (Identifier "execArgv"))
               (bun_execArgv options).
Proof.
  unfold construct_options. cbn [jsDynamicCast_JSObject]. unfold bind.
  destruct (construct_name_outcome o (set_bun_unref false WorkerOptions_default))
    as (o1 & E1 & S1). rewrite E1.
  destruct (construct_smol_outcome o o1) as (o2 & E2 & S2). rewrite E2.
  rewrite construct_ref_outcome.
  match goal with
  | |- context [construct_workerData o ?x None] => set (o3 := x)
  end.
  destruct (construct_workerData o o3 None) as [[o4 | r4] s4] eqn:E4;
    [ | discriminate ].
  apply construct_workerData_Continue in E4. destruct E4 as (-> & S4).
  destruct (construct_env g o o4 None) as [[o5 | r5] s5] eqn:E5;
    [ | discriminate ].
  apply construct_env_Continue in E5. destruct E5 as (-> & S5).
  destruct (construct_argv_outcome o o5) as (o6 & s6 & E6 & S6). rewrite E6.
  destruct s6 as [pending | ];
    [ rewrite construct_execArgv_pending; discriminate | ].
  specialize (S6 eq_refl).
  destruct (construct_execArgv_outcome o o6) as (o7 & s7 & E7 & S7). rewrite E7.
  intros E. inversion E; subst o7 s7. clear E. specialize (S7 eq_refl).
  assert (F1 : bun_unref o2 = false /\ bun_data o2 = None /\ bun_env o2 = None /\
               bun_argv o2 = None /\ bun_execArgv o2 = None).
  { destruct S1 as [-> | (? & ->)], S2 as [-> | (? & ->)]; splits; reflexivity. }
  destruct F1 as (F1u & F1d & F1e & F1a & F1x).
  assert (F3 : bun_unref o3 =
               match getIfPropertyExists o (Identifier "ref") with
               | Some ref => negb (toBoolean ref)
               | None => false
               end /\ bun_data o3 = None /\ bun_env o3 = None /\
               bun_argv o3 = None /\ bun_execArgv o3 = None).
  { subst o3. destruct (getIfPropertyExists o (Identifier "ref"));
      splits; simpl; auto. }
  clearbody o3. destruct F3 as (F3u & F3d & F3e & F3a & F3x).
  assert (F4 : bun_unref o4 = bun_unref o3 /\ bun_env o4 = None /\
               bun_argv o4 = None /\ bun_execArgv o4 = None /\
               match construct_workerDataValue o with
               | None => bun_data o4 = None
               | Some workerData =>
                   exists serialized ports,
                     SerializedScriptValue_create workerData
                       (construct_transferList o)
                       = ReturnValue (serialized, ports) /\
                     bun_data o4 = Some serialized
               end).
  { destruct (construct_workerDataValue o).
    - destruct S4 as (serialized & ports & tp & Hc & ->).
      splits; simpl; eauto.
    - subst o4. splits; simpl; auto. }
  destruct F4 as (F4u & F4e & F4a & F4x & F4d).
  assert (F5 : bun_unref o5 = bun_unref o4 /\ bun_data o5 = bun_data o4 /\
               bun_argv o5 = None /\ bun_execArgv o5 = None /\
               match environmentSource g o with
               | None => bun_env o5 = None
               | Some envObject =>
                   exists env, bun_env o5 = Some env /\
                               capturesEnvironment envObject env
               end).
  { destruct (environmentSource g o).
    - destruct S5 as (env & Hcap & ->). splits; simpl; eauto.
    - subst o5. splits; simpl; auto. }
  destruct F5 as (F5u & F5d & F5a & F5x & F5e).
  assert (F6 : bun_unref o6 = bun_unref o5 /\ bun_data o6 = bun_data o5 /\
               bun_env o6 = bun_env o5 /\ bun_execArgv o6 = None /\
               capturedList (getIfPropertyExists o (Identifier "argv"))
                            (bun_argv o6)).
  { unfold capturedList.
    destruct (getIfPropertyExists o (Identifier "argv")) as [v | ].
    - destruct (isArrayTyped v).
      + destruct S6 as (values & strings & -> & Hit & Hcap).
        splits; simpl; eauto.
      + subst o6. splits; simpl; auto.
    - subst o6. splits; simpl; auto. }
  destruct F6 as (F6u & F6d & F6e & F6x & F6a).
  assert (F7 : bun_unref options = bun_unref o6 /\
               bun_data options = bun_data o6 /\
               bun_env options = bun_env o6 /\
               bun_argv options = bun_argv o6 /\
               capturedList (getIfPropertyExists o (Identifier "execArgv"))
                            (bun_execArgv options)).
  { unfold capturedList.
    destruct (getIfPropertyExists o (Identifier "execArgv")) as [v | ].
    - destruct (isArrayTyped v).
      + destruct S7 as (values & strings & -> & Hit & Hcap).
        splits; simpl; eauto.
      + subst options. splits; simpl; auto.
    - subst options. splits; simpl; auto. }
  destruct F7 as (F7u & F7d & F7e & F7a & F7x).
  rewrite F7u, F6u, F5u, F4u, F3u, F7d, F6d, F5d, F7e, F6e, F7a.
  splits; solve [ reflexivity | assumption ].
Qed.



(** ** The constructor as a whole *)

(** Once the script URL is converted, the constructor is the options,
    the creation of the worker and the start of the thread. *)
Lemma construct_steps (g : GlobalObject) (c : JSWorkerDOMConstructor)
    (callFrame : CallFrame) (context : ScriptExecutionContext)
    (argument0 : JSValue) (rest : list JSValue) (scriptUrl : string) :
  scriptExecutionContext c = Some context ->
  arguments callFrame = argument0 :: rest ->
  stringOf argument0 = inl scriptUrl ->
  construct g c callFrame =
  match construct_options g (argument callFrame 1) None with
  | (Return r, s) => (r, s)
  | (Continue _, Some e) => (None, Some e)
  | (Continue options, None) =>
      match Worker_create context (mkString scriptUrl false) options with
      | HasException e => (None, Some (PropagatedException e))
      | ReturnValue impl =>
          if updatePtr impl then
            match setSubclassStructureIfNeeded callFrame with
            | Some e => (None, Some e)
            | None => (Some {| wrapped := impl |}, None)
            end
          else (None, Some (Error "Failed to start Worker thread"))
      end
  end.
Proof.
  intros Hc Ha Hs.
  unfold construct, hostCall, construct_body, argumentCount, uncheckedArgument,
    convert_IDLUSVString.
  rewrite Hc, Ha. cbn [List.length Nat.ltb Nat.leb nth].
  unfold bind at 1. rewrite toWTFString_stringOf, Hs.
  unfold bind at 1. cbn [RETURN_IF_EXCEPTION].
  unfold bind at 1.
  destruct (construct_options g (argument callFrame 1) None)
    as [[options | r] [e | ]]; try reflexivity.
  unfold bind at 1. cbn [RETURN_IF_EXCEPTION]. unfold bind at 1.
  destruct (Worker_create context (mkString scriptUrl false) options)
    as [impl | e]; [ | reflexivity ].
  cbn [toJSNewlyCreated ret]. unfold bind at 1. cbn [RETURN_IF_EXCEPTION wrapped].
  destruct (updatePtr impl); [ | reflexivity ].
  cbn [negb]. destruct (setSubclassStructureIfNeeded callFrame); reflexivity.
Qed.

(** The options never make the constructor return a wrapper. *)
Lemma construct_options_Return (g : GlobalObject) (argument1 : JSValue)
    (r : EncodedJSWorker) (s : ThrowScope) :
  construct_options g argument1 None = (Return r, s) -> r = None.
Proof.
  unfold construct_options.
  destruct (jsDynamicCast_JSObject argument1) as [o | ]; [ | discriminate ].
  unfold bind.
  destruct (construct_name_outcome o (set_bun_unref false WorkerOptions_default))
    as (o1 & E1 & _). rewrite E1.
  destruct (construct_smol_outcome o o1) as (o2 & E2 & _). rewrite E2.
  rewrite construct_ref_outcome.
  match goal with
  | |- context [construct_workerData o ?x None] => set (o3 := x)
  end.
  destruct (construct_workerData o o3 None) as [[o4 | r4] s4] eqn:E4.
  - apply construct_workerData_Continue in E4. destruct E4 as (-> & _).
    destruct (construct_env g o o4 None) as [[o5 | r5] s5] eqn:E5.
    + apply construct_env_Continue in E5. destruct E5 as (-> & _).
      destruct (construct_argv_outcome o o5) as (o6 & s6 & E6 & _). rewrite E6.
      destruct s6 as [pending | ].
      * rewrite construct_execArgv_pending. congruence.
      * destruct (construct_execArgv_outcome o o6) as (o7 & s7 & E7 & _).
        rewrite E7. discriminate.
    + pose proof (construct_env_outcome g o o4) as Hout.
      destruct (environmentSource g o).
      * destruct Hout as [(env & _ & Hout) | (e & Hout)];
          rewrite Hout in E5; inversion E5; congruence.
      * rewrite Hout in E5. discriminate.
  - revert E4. unfold construct_workerData.
    destruct (construct_workerDataValue o); [ | discriminate ].
    rewrite construct_serialize_outcome.
    destruct (SerializedScriptValue_create _ _) as [[ser [| port ports]] | e];
      try discriminate.
    + destruct (MessagePort_disentanglePorts _); try discriminate.
      intros E; inversion E; congruence.
    + intros E; inversion E; congruence.
Qed.

(** A call that returns a wrapper got through every step. *)
Lemma construct_Some (g : GlobalObject) (c : JSWorkerDOMConstructor)
    (callFrame : CallFrame) (jsWorker : JSWorker) (s : ThrowScope) :
  construct g c callFrame = (Some jsWorker, s) ->
  s = None /\
  exists context argument0 rest scriptUrl options,
    scriptExecutionContext c = Some context /\
    arguments callFrame = argument0 :: rest /\
    stringOf argument0 = inl scriptUrl /\
    construct_options g (argument callFrame 1) None = (Continue options, None) /\
    Worker_create context (mkString scriptUrl false) options
      = ReturnValue (wrapped jsWorker) /\
    updatePtr (wrapped jsWorker) = true.
Proof.
  intros E.
  destruct (arguments callFrame) as [| argument0 rest] eqn:Ha.
  { unfold construct, hostCall, construct_body, argumentCount in E.
    rewrite Ha in E. discriminate. }
  destruct (scriptExecutionContext c) as [context | ] eqn:Hc.
  2:{ unfold construct, hostCall, construct_body, argumentCount in E.
      rewrite Ha, Hc in E. discriminate. }
  destruct (stringOf argument0) as [scriptUrl | e] eqn:Hs.
  2:{ unfold construct, hostCall, construct_body, argumentCount,
        uncheckedArgument, convert_IDLUSVString in E.
      rewrite Ha, Hc in E. cbn [List.length Nat.ltb Nat.leb nth] in E.
      unfold bind at 1 in E. rewrite toWTFString_stringOf, Hs in E.
      discriminate. }
  rewrite (construct_steps g c callFrame Hc Ha Hs) in E.
  destruct (construct_options g (argument callFrame 1) None)
    as [[options | r] [e | ]] eqn:Ho; try discriminate.
  - destruct (Worker_create context (mkString scriptUrl false) options)
      as [impl | e] eqn:Hw; [ | discriminate ].
    destruct (updatePtr impl) eqn:Hu; [ | discriminate ].
    destruct (setSubclassStructureIfNeeded callFrame); [ discriminate | ].
    inversion E; subst. split; [ reflexivity | ].
    exists context, argument0, rest, scriptUrl, options. auto 10.
  - apply construct_options_Return in Ho; subst r; discriminate.
  - apply construct_options_Return in Ho; subst r; discriminate.
Qed.

Lemma Worker_create_ReturnValue (context : ScriptExecutionContext)
    (scriptUrl : WTFString) (opts : WorkerOptions) (impl : Worker) :
  Worker_create context scriptUrl opts = ReturnValue impl ->
  options impl = opts /\ keepAlive impl = negb (bun_unref opts).
Proof.
  unfold Worker_create. destruct (WebWorker_create context scriptUrl);
    [ | discriminate ].
  intros E. inversion E. split; reflexivity.
Qed.

Lemma construct_options_not_object (g : GlobalObject) (argument1 : JSValue) :
  jsDynamicCast_JSObject argument1 = None ->
  construct_options g argument1 None =
  (Continue (set_bun_unref false WorkerOptions_default), None).
Proof. unfold construct_options. intros ->. reflexivity. Qed.

(** The options of the worker a call returns. *)
Lemma construct_Some_options (g : GlobalObject) (c : JSWorkerDOMConstructor)
    (callFrame : CallFrame) (jsWorker : JSWorker) (s : ThrowScope) :
  construct g c callFrame = (Some jsWorker, s) ->
  construct_options g (argument callFrame 1) None
    = (Continue (options (wrapped jsWorker)), None) /\
  keepAlive (wrapped jsWorker) = negb (bun_unref (options (wrapped jsWorker))).
Proof.
  intros E. apply construct_Some in E.
  destruct E as (_ & context & argument0 & rest & scriptUrl & opts &
                 _ & _ & _ & Ho & Hw & _).
  apply Worker_create_ReturnValue in Hw. destruct Hw as (-> & Hk). auto.
Qed.

(** *** The transfer list *)

Lemma transferList_loop (l : list JSValue) :
  forall (pre : list JSValue) (acc : list JSObject),
    fold_left
      (fun transferList i =>
         match nth i (pre ++ l) jsUndefined with
         | jsObject transferListObject => transferList ++ [transferListObject]
         | _ => transferList
         end)
      (seq (List.length pre) (List.length l)) acc
    = acc ++ objectsOf l.
Proof.
  induction l as [| x l IH]; intros pre acc.
  - simpl. symmetry. apply app_nil_r.
  - cbn [List.length seq fold_left]. rewrite nth_middle.
    specialize (IH (pre ++ [x])).
    rewrite <- app_assoc, last_length in IH. cbn [app] in IH.
    rewrite IH. destruct x; try reflexivity.
    simpl. rewrite <- app_assoc. reflexivity.
Qed.

Lemma construct_transferList_objects (o : JSObject) :
  construct_transferList o =
  match getIfPropertyExists o (Identifier "transferList") with
  | Some (jsObject transferListArray) =>
      match jsDynamicCast_JSArray transferListArray with
      | Some _ => objectsOf (elements transferListArray)
      | None => []
      end
  | _ => []
  end.
Proof.
  unfold construct_transferList.
  destruct (getIfPropertyExists o (Identifier "transferList"))
    as [[| | b | n | str | d | a] | ]; try reflexivity.
  unfold jsDynamicCast_JSArray.
  destruct (type a); try reflexivity;
    apply (transferList_loop (elements a) [] []).
Qed.

(** ** The claims about the constructor *)


Lemma posts_keepAlive (castedThis : JSWorker) (message : JSValue)
    (transferList : list JSObject) :
  keepAlive (wrapped (snd (fst (posts castedThis message transferList))))
  = keepAlive (wrapped castedThis).
Proof.
  unfold posts, postMessage, hostCall. cbn [transfer].
  destruct (SerializedScriptValue_create message transferList)
    as [[serialized ports] | e]; [ | reflexivity ].
  destruct (MessagePort_disentanglePorts ports); reflexivity.
Qed.

Lemma postMessage_keepAlive (castedThis : JSWorker) (callFrame : CallFrame) :
  keepAlive (wrapped (snd (fst (hostCall
    (jsWorkerPrototypeFunction_postMessageOverloadDispatcher
       castedThis callFrame)))))
  = keepAlive (wrapped castedThis).
Proof.
  rewrite postMessageOverloadDispatcher_outcome.
  rewrite postMessage1Body_outcome, postMessage2Body_outcome.
  repeat match goal with
         | |- context [match ?x with _ => _ end] => destruct x
         end;
    solve [ reflexivity | apply posts_keepAlive ].
Qed.

(** C3.  The worker a call returns has [keepAlive] set unless the options
    object has a [ref] property that converts to false; [ref] sets it,
    [unref] clears it, and [terminate], [postMessage], the [threadId]
    getter and the event-handler attributes leave it as it is. *)
Theorem keepAlive_ref_unref (g : GlobalObject) (c : JSWorkerDOMConstructor)
    (callFrame : CallFrame) (jsWorker : JSWorker) (s : ThrowScope) :
  construct g c callFrame = (Some jsWorker, s) ->
  keepAlive (wrapped jsWorker) =
    match optionValue (argument callFrame 1) "ref" with
    | Some ref => toBoolean ref
    | None => true
    end /\
  forall (op : Operation) (handle : JSWorker),
    keepAlive (wrapped (after op handle)) =
    match op with
    | call_ref _ => true
    | call_unref _ => false
    | _ => keepAlive (wrapped handle)
    end.
Proof.
  intros E. split.
  - apply construct_Some_options in E. destruct E as (Ho & ->).
    unfold optionValue.
    destruct (argument callFrame 1) as [| | b | n | str | d | o];
      try (rewrite construct_options_not_object in Ho by reflexivity;
           inversion Ho as [Hopts]; reflexivity).
    apply construct_options_fields in Ho. destruct Ho as (-> & _).
    destruct (getIfPropertyExists o (Identifier "ref"));
      [ apply negb_involutive | reflexivity ].
  - intros [cf | cf | cf | cf | | | v | | v | | v] handle; try reflexivity.
    apply postMessage_keepAlive.
Qed.


(** C6.  When the options are read without an exception and the worker is
    created but its thread does not start, the constructor returns no
    wrapper and throws an error with the message "Failed to start Worker
    thread". *)
Theorem thread_start_failure (g : GlobalObject) (c : JSWorkerDOMConstructor)
    (callFrame : CallFrame) (context : ScriptExecutionContext)
    (argument0 : JSValue) (rest : list JSValue) (scriptUrl : string)
    (opts : WorkerOptions) (impl : Worker) :
  scriptExecutionContext c = Some context ->
  arguments callFrame = argument0 :: rest ->
  stringOf argument0 = inl scriptUrl ->
  construct_options g (argument callFrame 1) None = (Continue opts, None) ->
  Worker_create context (mkString scriptUrl false) opts = ReturnValue impl ->
  updatePtr impl = false ->
  construct g c callFrame
    = (None, Some (Error "Failed to start Worker thread")).
Proof.
  intros Hc Ha Hs Ho Hw Hu.
  rewrite (construct_steps g c callFrame Hc Ha Hs), Ho, Hw, Hu. reflexivity.
Qed.

(** C8.  For a call that returns a worker from an options object: the
    payload is the [workerData] option when it is there and the [data]
    option otherwise; it was serialized by the constructor with the
    transfer list read from the [transferList] option, and the snapshot is
    the data of the options; with neither option there is no data. *)
Theorem workerData_wins (g : GlobalObject) (c : JSWorkerDOMConstructor)
    (callFrame : CallFrame) (jsWorker : JSWorker) (s : ThrowScope)
    (optionsObject : JSObject) :
  construct g c callFrame = (Some jsWorker, s) ->
  argument callFrame 1 = jsObject optionsObject ->
  match
    match getIfPropertyExists optionsObject (Identifier "workerData") with
    | Some workerData => Some workerData
    | None => getIfPropertyExists optionsObject (Identifier "data")
    end
  with
  | Some payload =>
      exists serialized ports,
        SerializedScriptValue_create payload
          (construct_transferList optionsObject)
          = ReturnValue (serialized, ports) /\
        bun_data (options (wrapped jsWorker)) = Some serialized
  | None => bun_data (options (wrapped jsWorker)) = None
  end.
Proof.
  intros E Harg. apply construct_Some_options in E. destruct E as (Ho & _).
  rewrite Harg in Ho. apply construct_options_fields in Ho.
  destruct Ho as (_ & Hdata & _). exact Hdata.
Qed.


(** C10.  The payload is serialized with the objects among the elements
    of the [transferList] option when the option is an array, and with an
    empty transfer list when it is anything else; reading the option
    throws nothing, so the only exceptions of the step are those of the
    serialization itself. *)
Theorem transferList_lenient (optionsObject : JSObject) (opts : WorkerOptions) :
  construct_workerData optionsObject opts =
  match construct_workerDataValue optionsObject with
  | Some workerData =>
      construct_serialize workerData
        match getIfPropertyExists optionsObject (Identifier "transferList") with
        | Some (jsObject transferListArray) =>
            match jsDynamicCast_JSArray transferListArray with
            | Some _ => objectsOf (elements transferListArray)
            | None => []
            end
        | _ => []
        end
        opts
  | None => ret opts
  end.
Proof.
  unfold construct_workerData.
  rewrite construct_transferList_objects. reflexivity.
Qed.

End Properties.

(** * The properties on concrete calls *)

Import Example.

Example construct_plain :
  construct globalObject constructor (frame [url]) = (Some worker, None).
Proof. reflexivity. Qed.

(** [worker.postMessage(1, { [Symbol.iterator]: 5 })]: the second argument
    is an object, not null, with no iterator method to call, and the call
    is not the options form: it throws. *)
Lemma postMessage_overload_counterexample :
  let distinguishingArg := jsObject brokenIterable in
  let callFrame := frame [jsNumber 1; distinguishingArg] in
  isUndefinedOrNull distinguishingArg = false /\
  iteratorProbe distinguishingArg <> inl true /\
  isObject distinguishingArg = true /\
  hostCall (jsWorkerPrototypeFunction_postMessageOverloadDispatcher
              worker callFrame)
    = throws worker (TypeError "Symbol.iterator property should be callable") /\
  hostCall (jsWorkerPrototypeFunction_postMessageOverloadDispatcher
              worker callFrame)
    <> hostCall (jsWorkerPrototypeFunction_postMessage2Body worker callFrame).
Proof.
  cbv zeta. repeat split; try reflexivity; intros E; vm_compute in E;
    discriminate E.
Qed.



Lemma reachable_iff_pending_activity_witness :
  reclaimed false worker = false.
Proof.
  exact (proj2 (reachable_iff_pending_activity worker false false)
               eq_refl eq_refl).
Defined.


Lemma keepAlive_ref_unref_witness :
  exists jsWorker,
    construct globalObject constructor (frame [url; unreffedOptions])
      = (Some jsWorker, None) /\
    keepAlive (wrapped jsWorker) = false /\
    keepAlive (wrapped (after (call_ref (frame [])) jsWorker)) = true /\
    keepAlive (wrapped (after (call_terminate (frame [])) jsWorker)) = false.
Proof.
  eexists.
  assert (E : construct globalObject constructor (frame [url; unreffedOptions])
              = (Some _, None)) by reflexivity.
  destruct (keepAlive_ref_unref _ _ _ E) as [Hnew Hop].
  split; [ exact E | ]. split; [ exact Hnew | ].
  split; [ apply (Hop (call_ref (frame []))) | ].
  rewrite (Hop (call_terminate (frame []))). exact Hnew.
Defined.


Lemma thread_start_failure_witness :
  construct globalObject lateConstructor (frame [url])
    = (None, Some (Error "Failed to start Worker thread")).
Proof.
  eapply thread_start_failure; reflexivity.
Defined.

Lemma workerData_wins_witness :
  exists jsWorker,
    construct globalObject constructor (frame [url; jsObject payloadOptions])
      = (Some jsWorker, None) /\
    bun_data (options (wrapped jsWorker)) = Some (jsNumber 1, [port 2]).
Proof.
  eexists.
  assert (E : construct globalObject constructor
                (frame [url; jsObject payloadOptions]) = (Some _, None))
    by reflexivity.
  destruct (workerData_wins _ _ _ E (optionsObject := payloadOptions) eq_refl)
    as (serialized & ports & Hc & Hd).
  split; [ exact E | ].
  transitivity (Some serialized); [ exact Hd | ].
  vm_compute in Hc. inversion Hc. reflexivity.
Defined.


(** ** The calls of the dispatch table *)

Example postMessage_message :
  hostCall (jsWorkerPrototypeFunction_postMessageOverloadDispatcher
              worker (frame [jsString "m"]))
  = posts worker (jsString "m") [].
Proof. reflexivity. Qed.

Example postMessage_message_undefined :
  hostCall (jsWorkerPrototypeFunction_postMessageOverloadDispatcher
              worker (frame [jsString "m"; jsUndefined]))
  = posts worker (jsString "m") [].
Proof. reflexivity. Qed.

Example postMessage_message_array :
  hostCall (jsWorkerPrototypeFunction_postMessageOverloadDispatcher
              worker (frame [jsString "m"; jsObject (array [jsObject (port 1)])]))
  = hostCall (jsWorkerPrototypeFunction_postMessage1Body
                worker (frame [jsString "m"; jsObject (array [jsObject (port 1)])]))
  /\
  hostCall (jsWorkerPrototypeFunction_postMessage1Body
              worker (frame [jsString "m"; jsObject (array [jsObject (port 1)])]))
  = posts worker (jsString "m") [port 1].
Proof. split; reflexivity. Qed.

Example postMessage_message_options :
  hostCall (jsWorkerPrototypeFunction_postMessageOverloadDispatcher
              worker
              (frame [jsString "m";
                      jsObject (object [("transfer",
                                         jsObject (array [jsObject (port 1)]))])]))
  = posts worker (jsString "m") [port 1].
Proof. reflexivity. Qed.

Example postMessage_message_number :
  hostCall (jsWorkerPrototypeFunction_postMessageOverloadDispatcher
              worker (frame [jsString "m"; jsNumber 5]))
  = throws worker (TypeError "Type error").
Proof. reflexivity. Qed.

Example postMessage_nothing :
  hostCall (jsWorkerPrototypeFunction_postMessageOverloadDispatcher
              worker (frame []))
  = throws worker NotEnoughArgumentsError.
Proof. reflexivity. Qed.

(** ** Calls of the constructor that throw *)

Example construct_nothing :
  construct globalObject constructor (frame [])
  = (None, Some NotEnoughArgumentsError).
Proof. reflexivity. Qed.

Example construct_without_context :
  construct globalObject {| scriptExecutionContext := None |} (frame [url])
  = (None, Some (ScriptExecutionContextUnavailableError "Worker")).
Proof. reflexivity. Qed.

(** [new Worker("worker.js", { argv: [Symbol(), 1] })]: the conversion of
    the first element throws, the exception is seen after the [execArgv]
    option is read, and no worker is returned. *)
(** An array whose [Symbol.iterator] property cannot be called. *)
Example construct_argv_broken_iterator :
  construct globalObject constructor
    (frame [url; jsObject (object
                   [("argv", jsObject (arrayWithIterator [jsString "a"]
                                                         (jsNumber 5)))])])
  = (None, Some (TypeError "Type error")).
Proof. reflexivity. Qed.

Example construct_argv_symbol :
  construct globalObject constructor
    (frame [url;
            jsObject (object [("argv",
                               jsObject (array [jsSymbol ""; jsNumber 1]))])])
  = (None, Some (TypeError "Cannot convert a symbol to a string")).
Proof. reflexivity. Qed.

(** [new Worker("worker.js", { argv: 5, transferList: 5, data: 1 })]: the
    malformed options are passed over. *)
Example construct_malformed_options :
  exists jsWorker,
    construct globalObject constructor
      (frame [url;
              jsObject (object [("argv", jsNumber 5);
                                ("transferList", jsNumber 5);
                                ("data", jsNumber 1)])])
    = (Some jsWorker, None) /\
    bun_argv (options (wrapped jsWorker)) = None /\
    bun_data (options (wrapped jsWorker)) = Some (jsNumber 1, []).
Proof. eexists. repeat split. Qed.

(** [new Worker("worker.js", { env: ["a", 7] })]: the indices of an array
    are its keys. *)
Example construct_env_array :
  exists jsWorker,
    construct globalObject constructor
      (frame [url;
              jsObject (object [("env",
                                 jsObject (array [jsString "a"; jsNumber 7]))])])
    = (Some jsWorker, None) /\
    bun_env (options (wrapped jsWorker))
    = Some [(mkString "0" true, mkString "a" true);
            (mkString "1" true, mkString "7" true)].
Proof. eexists. split; reflexivity. Qed.

(** * Further properties of the constructor *)

Section ConstructorProperties.

Context `{Collaborators}.

(** ** The stages of reading the options *)

Lemma construct_name_exact (o : JSObject) (opts : WorkerOptions) :
  construct_name o opts None =
  (Continue
     match getIfPropertyExists o (Identifier "name") with
     | Some (jsString s) => set_name (mkString s false) opts
     | _ => opts
     end, None).
Proof.
  unfold construct_name.
  destruct (getIfPropertyExists o (Identifier "name"))
    as [[| | b | n | str | d | m] | ]; reflexivity.
Qed.

Lemma construct_smol_exact (o : JSObject) (opts : WorkerOptions) :
  construct_smol o opts None =
  (Continue
     match getIfPropertyExists o (Identifier "smol") with
     | Some miniModeValue => set_bun_mini (toBoolean miniModeValue) opts
     | None => opts
     end, None).
Proof.
  unfold construct_smol.
  destruct (getIfPropertyExists o (Identifier "smol")); reflexivity.
Qed.

(** The options after the [name], [smol] and [ref] options are read. *)
Lemma construct_options_unfold (g : GlobalObject) (o : JSObject) :
  exists o3,
    name o3 =
      match getIfPropertyExists o (Identifier "name") with
      | Some (jsString s) => mkString s false
      | _ => emptyString
      end /\
    bun_mini o3 =
      match getIfPropertyExists o (Identifier "smol") with
      | Some miniModeValue => toBoolean miniModeValue
      | None => false
      end /\
    bun_dataMessagePorts o3 = [] /\
    construct_options g (jsObject o) None =
    match construct_workerData o o3 None with
    | (Return r, s) => (Return r, s)
    | (Continue o4, s4) =>
        match construct_env g o o4 s4 with
        | (Return r, s) => (Return r, s)
        | (Continue o5, s5) =>
            match construct_argv o o5 s5 with
            | (Return r, s) => (Return r, s)
            | (Continue o6, s6) => construct_execArgv o o6 s6
            end
        end
    end.
Proof.
  eexists. split; [ | split; [ | split ] ].
  4:{ unfold construct_options. cbn [jsDynamicCast_JSObject]. unfold bind.
      rewrite construct_name_exact, construct_smol_exact, construct_ref_outcome.
      reflexivity. }
  - destruct (getIfPropertyExists o (Identifier "ref"));
      destruct (getIfPropertyExists o (Identifier "smol"));
      destruct (getIfPropertyExists o (Identifier "name"))
        as [[| | b | n | str | d | m] | ]; reflexivity.
  - destruct (getIfPropertyExists o (Identifier "ref"));
      destruct (getIfPropertyExists o (Identifier "smol"));
      destruct (getIfPropertyExists o (Identifier "name"))
        as [[| | b | n | str | d | m] | ]; reflexivity.
  - destruct (getIfPropertyExists o (Identifier "ref"));
      destruct (getIfPropertyExists o (Identifier "smol"));
      destruct (getIfPropertyExists o (Identifier "name"))
        as [[| | b | n | str | d | m] | ]; reflexivity.
Qed.

(** What the payload stage comes to on an empty exception slot. *)
Lemma construct_workerData_cases (g : GlobalObject) (o : JSObject)
    (opts : WorkerOptions) :
  (exists x, construct_workerData o opts None
               = (Return None, Some (PropagatedException x)) /\
             optionsError g o (PropagatedException x)) \/
  (exists opts',
     construct_workerData o opts None = (Continue opts', None) /\
     name opts' = name opts /\ bun_mini opts' = bun_mini opts /\
     match construct_workerDataValue o with
     | None => bun_dataMessagePorts opts' = bun_dataMessagePorts opts
     | Some payload =>
         exists serialized ports,
           SerializedScriptValue_create payload (construct_transferList o)
             = ReturnValue (serialized, ports) /\
           match ports with
           | [] => bun_dataMessagePorts opts' = []
           | _ :: _ =>
               MessagePort_disentanglePorts ports
                 = ReturnValue (bun_dataMessagePorts opts')
           end
     end).
Proof.
  unfold construct_workerData.
  destruct (construct_workerDataValue o) as [payload | ] eqn:Ev.
  2:{ right. exists opts. auto. }
  rewrite construct_serialize_outcome.
  destruct (SerializedScriptValue_create payload (construct_transferList o))
    as [[serialized [| port ports]] | x] eqn:Ec.
  - right. eexists. split; [ reflexivity | ]. splits; try reflexivity.
    exists serialized, []. auto.
  - destruct (MessagePort_disentanglePorts (port :: ports)) as [tp | x] eqn:Ed.
    + right. eexists. split; [ reflexivity | ]. splits; try reflexivity.
      exists serialized, (port :: ports). auto.
    + left. exists x. split; [ reflexivity | ].
      apply error_payload with (payload := payload); [ exact Ev | ].
      right. exists serialized, (port :: ports).
      split; [ exact Ec | split; [ discriminate | exact Ed ] ].
  - left. exists x. split; [ reflexivity | ].
    apply error_payload with (payload := payload); [ exact Ev | ].
    left. exact Ec.
Qed.

Lemma construct_envLoop_origin (envObject : JSObject) (keys : list string) :
  forall (env : HashMap) f e,
    construct_envLoop envObject keys env None = (f, Some e) ->
    f = Return None /\
    exists k, In k keys /\ stringOf (get envObject (Identifier k)) = inr e.
Proof.
  induction keys as [| key rest IH]; intros env f e.
  - discriminate.
  - simpl. unfold bind, RETURN_IF_EXCEPTION. rewrite toWTFString_stringOf.
    destruct (stringOf (get envObject (Identifier key))) as [str | e0] eqn:E.
    + intros Hloop. apply IH in Hloop. destruct Hloop as (-> & k & Hk & He).
      split; [ reflexivity | ]. exists k. auto.
    + intros Hloop. inversion Hloop; subst. split; [ reflexivity | ].
      exists key. auto.
Qed.

(** What the environment stage comes to on an empty exception slot. *)
Lemma construct_env_cases (g : GlobalObject) (o : JSObject)
    (opts : WorkerOptions) :
  (exists e, construct_env g o opts None = (Return None, Some e) /\
             optionsError g o e) \/
  (exists opts',
     construct_env g o opts None = (Continue opts', None) /\
     name opts' = name opts /\ bun_mini opts' = bun_mini opts /\
     bun_dataMessagePorts opts' = bun_dataMessagePorts opts).
Proof.
  destruct (construct_env g o opts None) as [f [e | ]] eqn:E.
  - left. exists e.
    revert E. unfold construct_env. cbv zeta. fold (environmentSource g o).
    destruct (environmentSource g o) as [envObject | ] eqn:Es;
      [ | discriminate ].
    unfold bind, RETURN_IF_EXCEPTION.
    destruct (construct_envLoop envObject (getOwnPropertyNames envObject) [] None)
      as [[env | r] s] eqn:Eloop.
    + intros E. inversion E; subst.
      apply construct_envLoop_origin in Eloop. destruct Eloop as (D & _).
      discriminate D.
    + intros E. inversion E; subst.
      apply construct_envLoop_origin in Eloop.
      destruct Eloop as (D & k & Hk & He). inversion D; subst.
      split; [ reflexivity | ].
      apply error_env with (envObject := envObject) (k := k); auto.
      apply getOwnPropertyNames_In. exact Hk.
  - right. pose proof (construct_env_outcome g o opts) as Hout.
    destruct (environmentSource g o) as [envObject | ].
    + destruct Hout as [(env & _ & Hout) | (e & Hout)];
        rewrite Hout in E; inversion E; subst.
      eexists. split; [ reflexivity | ]. splits; reflexivity.
    + rewrite Hout in E. inversion E; subst.
      exists opts. splits; reflexivity.
Qed.

Lemma forEachInList_origin (values : list JSValue) :
  forall (acc res : list WTFString) f e,
    forEachInList values construct_appendString acc None = (f, Some e) ->
    exists element, In element values /\ stringOf element = inr e.
Proof.
  induction values as [| nextValue rest IH]; intros acc res f e.
  - discriminate.
  - simpl. unfold construct_appendString, bind, exception.
    rewrite toWTFString_stringOf.
    destruct (stringOf nextValue) as [str | e0] eqn:E.
    + unfold ret. intros Hloop. apply (IH _ res) in Hloop.
      destruct Hloop as (element & Hin & He). exists element. auto.
    + unfold ret. intros Hloop. inversion Hloop; subst.
      exists nextValue. auto.
Qed.

Lemma forEachInIterable_origin (v : JSValue) (res : list WTFString)
    (e : JSException) :
  forEachInIterable v construct_appendString [] None = (Continue res, Some e) ->
  (exists element,
     In element (yielded (iterationOf v)) /\ stringOf element = inr e) \/
  thrown (iterationOf v) = Some e.
Proof.
  destruct v as [| | b | n | str | d | a];
    try (intros Hloop; inversion Hloop; right; reflexivity).
  unfold forEachInIterable, iterationOf.
  destruct (getIterationMode (jsObject a)) eqn:M.
  - intros Hloop. left. apply (forEachInList_origin _ _ res) in Hloop.
    exact Hloop.
  - unfold iteratorForIterable, bind, exception.
    destruct (isCallable (get a iteratorSymbol)) eqn:C.
    + destruct (iteratorProtocol (get a iteratorSymbol) (jsObject a))
        as [values x] eqn:P.
      unfold ret. cbn [negb yielded thrown].
      destruct (forEachInList_appendString values [] None)
        as (res1 & s1 & Hl & _).
      rewrite Hl. destruct s1 as [e1 | ].
      * intros Hloop. inversion Hloop; subst. left.
        apply (forEachInList_origin _ _ res) in Hl. exact Hl.
      * destruct x as [x | ]; intros Hloop; inversion Hloop; subst.
        right. reflexivity.
    + intros Hloop. inversion Hloop. right. reflexivity.
Qed.

(** What a string-list stage comes to on an empty exception slot: it goes
    on, with nothing pending, with the exception of a value that does not
    convert, or with the exception of the iteration. *)
Lemma construct_argv_cases (o : JSObject) (opts : WorkerOptions) :
  exists opts' s',
    construct_argv o opts None = (Continue opts', s') /\
    name opts' = name opts /\ bun_mini opts' = bun_mini opts /\
    bun_dataMessagePorts opts' = bun_dataMessagePorts opts /\
    forall e, s' = Some e ->
      exists v,
        getIfPropertyExists o (Identifier "argv") = Some v /\
        isArrayTyped v = true /\
        ((exists element,
            In element (yielded (iterationOf v)) /\ stringOf element = inr e) \/
         thrown (iterationOf v) = Some e).
Proof.
  unfold construct_argv, bind, RETURN_IF_EXCEPTION.
  destruct (getIfPropertyExists o (Identifier "argv")) as [v | ].
  2:{ exists opts, None. splits; try reflexivity. discriminate. }
  destruct (isArrayTyped v) eqn:Ea.
  2:{ exists opts, None. splits; try reflexivity. discriminate. }
  destruct (forEachInIterable_appendString v) as (res & s' & Hloop & _).
  rewrite Hloop. exists (set_bun_argv res opts), s'.
  splits; try reflexivity.
  intros e ->. exists v. apply forEachInIterable_origin in Hloop. auto.
Qed.

Lemma construct_execArgv_cases (o : JSObject) (opts : WorkerOptions) :
  exists opts' s',
    construct_execArgv o opts None = (Continue opts', s') /\
    name opts' = name opts /\ bun_mini opts' = bun_mini opts /\
    bun_dataMessagePorts opts' = bun_dataMessagePorts opts /\
    forall e, s' = Some e ->
      exists v,
        getIfPropertyExists o (Identifier "execArgv") = Some v /\
        isArrayTyped v = true /\
        ((exists element,
            In element (yielded (iterationOf v)) /\ stringOf element = inr e) \/
         thrown (iterationOf v) = Some e).
Proof.
  unfold construct_execArgv, bind, RETURN_IF_EXCEPTION.
  destruct (getIfPropertyExists o (Identifier "execArgv")) as [v | ].
  2:{ exists opts, None. splits; try reflexivity. discriminate. }
  destruct (isArrayTyped v) eqn:Ea.
  2:{ exists opts, None. splits; try reflexivity. discriminate. }
  destruct (forEachInIterable_appendString v) as (res & s' & Hloop & _).
  rewrite Hloop. exists (set_bun_execArgv res opts), s'.
  splits; try reflexivity.
  intros e ->. exists v. apply forEachInIterable_origin in Hloop. auto.
Qed.

(** What reading an options object comes to: an exception and what made
    it, the constructor returning the empty value or going on to the
    check of line 259; or the options, with nothing pending. *)
Lemma construct_options_cases (g : GlobalObject) (o : JSObject) :
  (exists f e,
     construct_options g (jsObject o) None = (f, Some e) /\
     optionsError g o e /\
     (f = Return None \/ exists opts, f = Continue opts)) \/
  (exists opts,
     construct_options g (jsObject o) None = (Continue opts, None) /\
     name opts =
       match getIfPropertyExists o (Identifier "name") with
       | Some (jsString s) => mkString s false
       | _ => emptyString
       end /\
     bun_mini opts =
       match getIfPropertyExists o (Identifier "smol") with
       | Some miniModeValue => toBoolean miniModeValue
       | None => false
       end /\
     match construct_workerDataValue o with
     | None => bun_dataMessagePorts opts = []
     | Some payload =>
         exists serialized ports,
           SerializedScriptValue_create payload (construct_transferList o)
             = ReturnValue (serialized, ports) /\
           match ports with
           | [] => bun_dataMessagePorts opts = []
           | _ :: _ =>
               MessagePort_disentanglePorts ports
                 = ReturnValue (bun_dataMessagePorts opts)
           end
     end).
Proof.
  destruct (construct_options_unfold g o) as (o3 & Hn & Hm & Hp & ->).
  destruct (construct_workerData_cases g o o3)
    as [(x & E4 & Herr) | (o4 & E4 & Hn4 & Hm4 & Hp4)]; rewrite E4.
  { left. eauto 8. }
  destruct (construct_env_cases g o o4)
    as [(e & E5 & Herr) | (o5 & E5 & Hn5 & Hm5 & Hp5)]; rewrite E5.
  { left. eauto 8. }
  destruct (construct_argv_cases o o5)
    as (o6 & s6 & E6 & Hn6 & Hm6 & Hp6 & Herr6). rewrite E6.
  destruct s6 as [e | ].
  { left. rewrite construct_execArgv_pending.
    destruct (Herr6 e eq_refl) as (v & Hv & Ha & [(element & Hin & He) | Hth]);
      exists (Return None), e; (split; [ reflexivity | ]).
    - split; [ eapply error_argv; eassumption | auto ].
    - split; [ eapply error_argv_iteration; eassumption | auto ]. }
  destruct (construct_execArgv_cases o o6)
    as (o7 & s7 & E7 & Hn7 & Hm7 & Hp7 & Herr7). rewrite E7.
  destruct s7 as [e | ].
  { left.
    destruct (Herr7 e eq_refl) as (v & Hv & Ha & [(element & Hin & He) | Hth]);
      exists (Continue o7), e; (split; [ reflexivity | ]).
    - split; [ eapply error_execArgv; eassumption | eauto ].
    - split; [ eapply error_execArgv_iteration; eassumption | eauto ]. }
  right. exists o7. split; [ reflexivity | ].
  rewrite Hn7, Hn6, Hn5, Hn4, Hm7, Hm6, Hm5, Hm4. splits; try assumption.
  destruct (construct_workerDataValue o) as [payload | ].
  - destruct Hp4 as (serialized & ports & Hc & Hports).
    exists serialized, ports. split; [ exact Hc | ].
    rewrite Hp7, Hp6, Hp5. exact Hports.
  - rewrite Hp7, Hp6, Hp5, Hp4. exact Hp.
Qed.






(** X3.  The checks of the constructor come in order: a call without
    argument throws the not-enough-arguments error whatever the
    constructor; a call with an argument on a constructor without context
    throws the context error whatever the arguments; and a script URL that
    does not convert throws its exception whatever the options. *)
Theorem construct_checks_in_order (g : GlobalObject)
    (c : JSWorkerDOMConstructor) (callFrame : CallFrame) :
  (arguments callFrame = [] ->
   construct g c callFrame = (None, Some NotEnoughArgumentsError)) /\
  (arguments callFrame <> [] ->
   scriptExecutionContext c = None ->
   construct g c callFrame
     = (None, Some (ScriptExecutionContextUnavailableError "Worker"))) /\
  (forall e,
     arguments callFrame <> [] ->
     scriptExecutionContext c <> None ->
     stringOf (argument callFrame 0) = inr e ->
     construct g c callFrame = (None, Some e)).
Proof.
  unfold construct, hostCall, construct_body, argumentCount, argument,
    uncheckedArgument, convert_IDLUSVString.
  destruct (arguments callFrame) as [| argument0 rest].
  { split; [ reflexivity | split; intros; congruence ]. }
  cbn [List.length Nat.ltb Nat.leb nth].
  split; [ discriminate | ]. split.
  - intros _ ->. reflexivity.
  - intros e _ Hc Hs.
    destruct (scriptExecutionContext c); [ | congruence ].
    unfold bind at 1. rewrite toWTFString_stringOf, Hs. reflexivity.
Qed.

(** X4.  When the second argument is missing or is not an object, it is
    ignored without error: reading the options leaves nothing pending and
    gives the default options (no name, not the reduced mode, not
    unreffed, no data, no ports, no environment, no argument list); the
    worker is created with them, and the call returns its wrapper unless
    [Worker::create] fails, the thread does not start or
    [setSubclassStructureIfNeeded] throws. *)
Theorem construct_without_options (g : GlobalObject)
    (c : JSWorkerDOMConstructor) (callFrame : CallFrame)
    (context : ScriptExecutionContext) (argument0 : JSValue)
    (rest : list JSValue) (scriptUrl : string) :
  scriptExecutionContext c = Some context ->
  arguments callFrame = argument0 :: rest ->
  stringOf argument0 = inl scriptUrl ->
  jsDynamicCast_JSObject (argument callFrame 1) = None ->
  construct_options g (argument callFrame 1) None
    = (Continue WorkerOptions_default, None) /\
  construct g c callFrame =
    match Worker_create context (mkString scriptUrl false)
                        WorkerOptions_default with
    | HasException e => (None, Some (PropagatedException e))
    | ReturnValue impl =>
        if updatePtr impl then
          match setSubclassStructureIfNeeded callFrame with
          | Some e => (None, Some e)
          | None => (Some {| wrapped := impl |}, None)
          end
        else (None, Some (Error "Failed to start Worker thread"))
    end /\
  (forall jsWorker s,
     construct g c callFrame = (Some jsWorker, s) ->
     options (wrapped jsWorker) = WorkerOptions_default).
Proof.
  intros Hc Ha Hs Hno.
  pose proof (construct_options_not_object g (argument callFrame 1) Hno) as Ho.
  splits.
  - exact Ho.
  - rewrite (construct_steps g c callFrame Hc Ha Hs), Ho. reflexivity.
  - intros jsWorker s E. apply construct_Some_options in E.
    destruct E as (Ho' & _). rewrite Ho in Ho'.
    inversion Ho' as [Hopts]. reflexivity.
Qed.

(** X5.  For a call that returns a worker from an options object: the
    name of the options is the [name] option when it is a string, with no
    conversion of a value of another kind, and it is empty otherwise; the
    reduced mode is the truth value of the [smol] option, and is off
    without the option. *)
Theorem name_and_smol_captured (g : GlobalObject) (c : JSWorkerDOMConstructor)
    (callFrame : CallFrame) (jsWorker : JSWorker) (s : ThrowScope)
    (optionsObject : JSObject) :
  construct g c callFrame = (Some jsWorker, s) ->
  argument callFrame 1 = jsObject optionsObject ->
  name (options (wrapped jsWorker)) =
    match getIfPropertyExists optionsObject (Identifier "name") with
    | Some (jsString str) => mkString str false
    | _ => emptyString
    end /\
  bun_mini (options (wrapped jsWorker)) =
    match getIfPropertyExists optionsObject (Identifier "smol") with
    | Some miniModeValue => toBoolean miniModeValue
    | None => false
    end.
Proof.
  intros E Harg. apply construct_Some_options in E. destruct E as (Ho & _).
  rewrite Harg in Ho.
  destruct (construct_options_cases g optionsObject)
    as [(f & e & E & _) | (opts & E & Hn & Hm & _)];
    rewrite E in Ho; [ discriminate | ].
  inversion Ho; subst. auto.
Qed.

(** X6.  For a call that returns a worker from an options object with an
    [env] option: a value that is a cell but not an object, a string or a
    symbol, gives no environment mapping, even where [process.env] is
    there; a value that is not a cell, undefined, null, a boolean or a
    number, is as a missing option. *)
Theorem env_not_an_object (g : GlobalObject) (c : JSWorkerDOMConstructor)
    (callFrame : CallFrame) (jsWorker : JSWorker) (s : ThrowScope)
    (optionsObject : JSObject) (envValue : JSValue) :
  construct g c callFrame = (Some jsWorker, s) ->
  argument callFrame 1 = jsObject optionsObject ->
  getIfPropertyExists optionsObject (Identifier "env") = Some envValue ->
  isObject envValue = false ->
  let env := bun_env (options (wrapped jsWorker)) in
  if isCell envValue then env = None
  else
    match m_processEnvObject g with
    | Some envObject =>
        exists m, env = Some m /\ capturesEnvironment envObject m
    | None => env = None
    end.
Proof.
  intros E Harg Hv Hobj. apply construct_Some_options in E.
  destruct E as (Ho & _). rewrite Harg in Ho.
  apply construct_options_fields in Ho. destruct Ho as (_ & _ & Henv & _).
  unfold environmentSource in Henv. rewrite Hv in Henv. cbv zeta.
  destruct envValue; try discriminate; exact Henv.
Qed.

(** X7.  For a call that returns a worker from an options object: the
    ports of the options are the ports of the payload once disentangled;
    when the serializer finds no port, [disentanglePorts] is not
    consulted and the options have no port; without payload the options
    have no port. *)
Theorem dataMessagePorts_captured (g : GlobalObject)
    (c : JSWorkerDOMConstructor) (callFrame : CallFrame)
    (jsWorker : JSWorker) (s : ThrowScope) (optionsObject : JSObject) :
  construct g c callFrame = (Some jsWorker, s) ->
  argument callFrame 1 = jsObject optionsObject ->
  let dataMessagePorts := bun_dataMessagePorts (options (wrapped jsWorker)) in
  match
    match getIfPropertyExists optionsObject (Identifier "workerData") with
    | Some workerData => Some workerData
    | None => getIfPropertyExists optionsObject (Identifier "data")
    end
  with
  | Some payload =>
      exists serialized ports,
        SerializedScriptValue_create payload
          (construct_transferList optionsObject)
          = ReturnValue (serialized, ports) /\
        match ports with
        | [] => dataMessagePorts = []
        | _ :: _ =>
            MessagePort_disentanglePorts ports = ReturnValue dataMessagePorts
        end
  | None => dataMessagePorts = []
  end.
Proof.
  intros E Harg. apply construct_Some_options in E. destruct E as (Ho & _).
  rewrite Harg in Ho.
  destruct (construct_options_cases g optionsObject)
    as [(f & e & E & _) | (opts & E & _ & _ & Hports)];
    rewrite E in Ho; [ discriminate | ].
  inversion Ho; subst. exact Hports.
Qed.

(** The constructor on a call frame, by the steps of its body. *)
Lemma construct_outcome (g : GlobalObject) (c : JSWorkerDOMConstructor)
    (callFrame : CallFrame) :
  construct g c callFrame =
  match arguments callFrame with
  | [] => (None, Some NotEnoughArgumentsError)
  | argument0 :: _ =>
      match scriptExecutionContext c with
      | None => (None, Some (ScriptExecutionContextUnavailableError "Worker"))
      | Some context =>
          match stringOf argument0 with
          | inr e => (None, Some e)
          | inl scriptUrl =>
              match construct_options g (argument callFrame 1) None with
              | (Return r, s) => (r, s)
              | (Continue _, Some e) => (None, Some e)
              | (Continue opts, None) =>
                  match Worker_create context (mkString scriptUrl false) opts with
                  | HasException e => (None, Some (PropagatedException e))
                  | ReturnValue impl =>
                      if updatePtr impl then
                        match setSubclassStructureIfNeeded callFrame with
                        | Some e => (None, Some e)
                        | None => (Some {| wrapped := impl |}, None)
                        end
                      else (None, Some (Error "Failed to start Worker thread"))
                  end
              end
          end
      end
  end.
Proof.
  destruct (arguments callFrame) as [| argument0 rest] eqn:Ha.
  { unfold construct, hostCall, construct_body, argumentCount.
    rewrite Ha. reflexivity. }
  destruct (scriptExecutionContext c) as [context | ] eqn:Hc.
  2:{ unfold construct, hostCall, construct_body, argumentCount.
      rewrite Ha, Hc. reflexivity. }
  destruct (stringOf argument0) as [scriptUrl | e] eqn:Hs.
  - apply (construct_steps g c callFrame Hc Ha Hs).
  - unfold construct, hostCall, construct_body, argumentCount,
      uncheckedArgument, convert_IDLUSVString.
    rewrite Ha, Hc. cbn [List.length Nat.ltb Nat.leb nth].
    unfold bind at 1. rewrite toWTFString_stringOf, Hs. reflexivity.
Qed.

(** X12.  The constructor looks at its first two arguments only: where
    [setSubclassStructureIfNeeded] does the same on both call frames, a
    call with more arguments comes to what the call with the first two
    comes to. *)
Theorem construct_ignores_further_arguments (g : GlobalObject)
    (c : JSWorkerDOMConstructor) (argument0 argument1 : JSValue)
    (rest : list JSValue) :
  setSubclassStructureIfNeeded
    {| arguments := argument0 :: argument1 :: rest |}
  = setSubclassStructureIfNeeded {| arguments := [argument0; argument1] |} ->
  construct g c {| arguments := argument0 :: argument1 :: rest |}
  = construct g c {| arguments := [argument0; argument1] |}.
Proof.
  intros Hsub. rewrite !construct_outcome. cbn [arguments].
  unfold argument. cbn [arguments nth]. rewrite Hsub. reflexivity.
Qed.

End ConstructorProperties.

(** * Further properties of the prototype functions *)

Section PrototypeProperties.

Context `{Collaborators}.

(** X8.  [postMessage] looks at its first two arguments only: a call with
    more arguments comes to what the call with the first two comes to. *)
Theorem postMessage_ignores_further_arguments (castedThis : JSWorker)
    (message distinguishingArg : JSValue) (rest : list JSValue) :
  hostCall (jsWorkerPrototypeFunction_postMessageOverloadDispatcher
              castedThis
              {| arguments := message :: distinguishingArg :: rest |})
  = hostCall (jsWorkerPrototypeFunction_postMessageOverloadDispatcher
                castedThis {| arguments := [message; distinguishingArg] |}).
Proof.
  rewrite !postMessageOverloadDispatcher_outcome.
  rewrite !postMessage1Body_outcome, !postMessage2Body_outcome.
  reflexivity.
Qed.

Lemma posts_undefined_or_exception (castedThis : JSWorker) (message : JSValue)
    (transferList : list JSObject) :
  (exists jsWorker,
     posts castedThis message transferList
       = ((Some jsUndefined, jsWorker), None)) \/
  (exists e, posts castedThis message transferList
               = ((None, castedThis), Some e)).
Proof.
  unfold posts, postMessage, hostCall. cbn [transfer].
  destruct (SerializedScriptValue_create message transferList)
    as [[serialized ports] | e]; [ | right; eexists; reflexivity ].
  destruct (MessagePort_disentanglePorts ports);
    [ left | right ]; eexists; reflexivity.
Qed.

(** X9.  A call of [postMessage] returns [undefined] with no exception
    pending, or the empty value with an exception pending and the wrapper
    as it was. *)
Theorem postMessage_undefined_or_exception (castedThis : JSWorker)
    (callFrame : CallFrame) :
  let outcome :=
    hostCall (jsWorkerPrototypeFunction_postMessageOverloadDispatcher
                castedThis callFrame) in
  (exists jsWorker, outcome = ((Some jsUndefined, jsWorker), None)) \/
  (exists e, outcome = ((None, castedThis), Some e)).
Proof.
  cbv zeta. rewrite postMessageOverloadDispatcher_outcome.
  rewrite postMessage1Body_outcome, postMessage2Body_outcome.
  unfold throws.
  repeat match goal with
         | |- context [match ?x with _ => _ end] => destruct x
         end;
    solve [ apply posts_undefined_or_exception | right; eexists; reflexivity ].
Qed.

Lemma posts_frame (castedThis : JSWorker) (message : JSValue)
    (transferList : list JSObject) :
  clientIdentifier (wrapped (snd (fst (posts castedThis message transferList))))
    = clientIdentifier (wrapped castedThis) /\
  options (wrapped (snd (fst (posts castedThis message transferList))))
    = options (wrapped castedThis).
Proof.
  unfold posts, postMessage, hostCall. cbn [transfer].
  destruct (SerializedScriptValue_create message transferList)
    as [[serialized ports] | e]; [ | split; reflexivity ].
  destruct (MessagePort_disentanglePorts ports); split; reflexivity.
Qed.

Lemma postMessage_frame (castedThis : JSWorker) (callFrame : CallFrame) :
  let jsWorker :=
    snd (fst (hostCall
      (jsWorkerPrototypeFunction_postMessageOverloadDispatcher
         castedThis callFrame))) in
  clientIdentifier (wrapped jsWorker) = clientIdentifier (wrapped castedThis) /\
  options (wrapped jsWorker) = options (wrapped castedThis).
Proof.
  cbv zeta. rewrite postMessageOverloadDispatcher_outcome.
  rewrite postMessage1Body_outcome, postMessage2Body_outcome.
  repeat match goal with
         | |- context [match ?x with _ => _ end] => destruct x
         end;
    solve [ split; reflexivity | apply posts_frame ].
Qed.

Lemma after_frame (op : Operation) (jsWorker : JSWorker) :
  clientIdentifier (wrapped (after op jsWorker))
    = clientIdentifier (wrapped jsWorker) /\
  options (wrapped (after op jsWorker)) = options (wrapped jsWorker) /\
  keepAlive (wrapped (after op jsWorker)) =
    match op with
    | call_ref _ => true
    | call_unref _ => false
    | _ => keepAlive (wrapped jsWorker)
    end.
Proof.
  destruct op as [cf | cf | cf | cf | | | v | | v | | v];
    try (splits; reflexivity).
  cbn [after]. destruct (postMessage_frame jsWorker cf) as (Hid & Hopts).
  split; [ exact Hid | split; [ exact Hopts | apply postMessage_keepAlive ] ].
Qed.

(** X10.  After any sequence of operations on a wrapper, [keepAlive] is
    what the last [ref] or [unref] of the sequence asked for, and what it
    was before when the sequence has neither. *)
Theorem keepAlive_last_ref_unref (ops : list Operation) (jsWorker : JSWorker) :
  keepAlive (wrapped (afterAll ops jsWorker))
  = lastKeepAlive ops (keepAlive (wrapped jsWorker)).
Proof.
  unfold afterAll, lastKeepAlive. revert jsWorker.
  induction ops as [| op ops IH]; intros jsWorker; [ reflexivity | ].
  cbn [fold_left]. rewrite IH.
  destruct (after_frame op jsWorker) as (_ & _ & ->). reflexivity.
Qed.

(** X11.  No sequence of operations on a wrapper changes the client
    identifier or the options of its worker, so the [threadId] getter
    gives the same number throughout. *)
Theorem threadId_and_options_stable (ops : list Operation)
    (jsWorker : JSWorker) :
  options (wrapped (afterAll ops jsWorker)) = options (wrapped jsWorker) /\
  jsWorker_threadIdGetter (thisWorker (afterAll ops jsWorker))
    = jsWorker_threadIdGetter (thisWorker jsWorker).
Proof.
  unfold afterAll, jsWorker_threadIdGetter. cbn [jsDynamicCast_JSWorker].
  revert jsWorker.
  induction ops as [| op ops IH]; intros jsWorker; [ split; reflexivity | ].
  cbn [fold_left]. destruct (IH (after op jsWorker)) as (-> & ->).
  destruct (after_frame op jsWorker) as (-> & -> & _). split; reflexivity.
Qed.

End PrototypeProperties.

(** * The further properties on concrete calls *)


Lemma construct_checks_in_order_witness :
  construct globalObject {| scriptExecutionContext := None |} (frame [])
    = (None, Some NotEnoughArgumentsError) /\
  construct globalObject {| scriptExecutionContext := None |}
            (frame [jsSymbol ""])
    = (None, Some (ScriptExecutionContextUnavailableError "Worker")) /\
  construct globalObject constructor (frame [jsSymbol ""; jsObject symbolOptions])
    = (None, Some (TypeError "Cannot convert a symbol to a string")).
Proof.
  split; [ | split ].
  - apply (proj1 (construct_checks_in_order globalObject
                    {| scriptExecutionContext := None |} (frame []))).
    reflexivity.
  - apply (proj1 (proj2 (construct_checks_in_order globalObject
                           {| scriptExecutionContext := None |}
                           (frame [jsSymbol ""]))));
      [ discriminate | reflexivity ].
  - apply (proj2 (proj2 (construct_checks_in_order globalObject constructor
                           (frame [jsSymbol ""; jsObject symbolOptions]))));
      [ discriminate | discriminate | reflexivity ].
Defined.

Lemma construct_without_options_witness :
  construct globalObject constructor (frame [url]) = (Some worker, None) /\
  construct globalObject constructor (frame [url; jsNull])
    = (Some worker, None) /\
  construct globalObject constructor (frame [url; jsString "options"])
    = (Some worker, None) /\
  construct globalObject constructor (frame [url; jsNumber 5])
    = (Some worker, None) /\
  construct globalObject lateConstructor (frame [url; jsNull])
    = (None, Some (Error "Failed to start Worker thread")).
Proof.
  splits.
  - exact (proj1 (proj2 (@construct_without_options _ globalObject constructor
                           (frame [url]) _ _ _ _
                           eq_refl eq_refl eq_refl eq_refl))).
  - exact (proj1 (proj2 (@construct_without_options _ globalObject constructor
                           (frame [url; jsNull]) _ _ _ _
                           eq_refl eq_refl eq_refl eq_refl))).
  - exact (proj1 (proj2 (@construct_without_options _ globalObject constructor
                           (frame [url; jsString "options"]) _ _ _ _
                           eq_refl eq_refl eq_refl eq_refl))).
  - exact (proj1 (proj2 (@construct_without_options _ globalObject constructor
                           (frame [url; jsNumber 5]) _ _ _ _
                           eq_refl eq_refl eq_refl eq_refl))).
  - exact (proj1 (proj2 (@construct_without_options _ globalObject
                           lateConstructor (frame [url; jsNull]) _ _ _ _
                           eq_refl eq_refl eq_refl eq_refl))).
Defined.

Lemma name_and_smol_captured_witness :
  exists jsWorker,
    construct globalObject constructor
      (frame [url; jsObject (object [("name", jsNumber 7);
                                     ("smol", jsString "yes")])])
      = (Some jsWorker, None) /\
    name (options (wrapped jsWorker)) = emptyString /\
    bun_mini (options (wrapped jsWorker)) = true.
Proof.
  eexists.
  assert (E : construct globalObject constructor
                (frame [url; jsObject (object [("name", jsNumber 7);
                                               ("smol", jsString "yes")])])
              = (Some _, None)) by reflexivity.
  split; [ exact E | ].
  exact (name_and_smol_captured _ _ _ E eq_refl).
Defined.

Lemma env_not_an_object_witness :
  (exists jsWorker,
     construct globalObject constructor
       (frame [url; jsObject (object [("env", jsString "HOME=/")])])
       = (Some jsWorker, None) /\
     bun_env (options (wrapped jsWorker)) = None) /\
  (exists jsWorker m,
     construct globalObject constructor
       (frame [url; jsObject (object [("env", jsNull)])])
       = (Some jsWorker, None) /\
     bun_env (options (wrapped jsWorker)) = Some m /\
     capturesEnvironment processEnv m).
Proof.
  split.
  - eexists.
    assert (E : construct globalObject constructor
                  (frame [url; jsObject (object [("env", jsString "HOME=/")])])
                = (Some _, None)) by reflexivity.
    split; [ exact E | ].
    exact (env_not_an_object _ _ _ E (optionsObject := object _)
             (envValue := jsString "HOME=/") eq_refl eq_refl eq_refl).
  - eexists.
    assert (E : construct globalObject constructor
                  (frame [url; jsObject (object [("env", jsNull)])])
                = (Some _, None)) by reflexivity.
    destruct (env_not_an_object _ _ _ E (optionsObject := object _)
                (envValue := jsNull) eq_refl eq_refl eq_refl)
      as (m & Hm & Hcap).
    exists m. split; [ exact E | split; assumption ].
Defined.

Lemma dataMessagePorts_captured_witness :
  exists jsWorker,
    construct globalObject constructor (frame [url; jsObject payloadOptions])
      = (Some jsWorker, None) /\
    bun_dataMessagePorts (options (wrapped jsWorker)) = [2%Z].
Proof.
  eexists.
  assert (E : construct globalObject constructor
                (frame [url; jsObject payloadOptions]) = (Some _, None))
    by reflexivity.
  destruct (dataMessagePorts_captured _ _ _ E (optionsObject := payloadOptions)
              eq_refl) as (serialized & ports & Hc & Hd).
  split; [ exact E | ].
  vm_compute in Hc. inversion Hc; subst.
  assert (Hr : ReturnValue [2%Z]
               = ReturnValue (bun_dataMessagePorts (options (wrapped _))))
    by exact Hd.
  inversion Hr as [Hports]. reflexivity.
Defined.

Lemma construct_ignores_further_arguments_witness :
  construct globalObject constructor
    {| arguments := [url; unreffedOptions; jsNumber 1; jsNull] |}
  = construct globalObject constructor
      {| arguments := [url; unreffedOptions] |}.
Proof.
  apply construct_ignores_further_arguments. reflexivity.
Defined.
